(** * Portfolio gallery: listing and mutation endpoints, client state controller

    A shallow embedding of
    - [src/app/api/projects/route.ts]            (listing endpoint, [GET]),
    - [src/app/api/projects/[id]/like/route.ts]  (like / unlike endpoint),
    - the view endpoint                          (view-increment endpoint),
    - the [DynamicPortfolio] component           (client state controller),
    together with the properties stated about them.

    Conventions.
    - JavaScript numbers that the code only ever uses as integers (counters,
      page numbers, indices) are [Z].
    - JavaScript strings are [string]; a character is one code unit below 256.
    - [Set<string>] is [gset string].
    - An [async] handler is cut at its single [await]: the part before it is
      a dispatch function, the part after it a settle function that receives
      the outcome of the network call. *)

From Stdlib Require Import ZArith QArith Qround String Ascii List Lia Bool.
From stdpp Require Import base gmap sets list strings pretty.

#[local] Set Warnings "-clear-no-such-hyp".

Local Open Scope string_scope.
Local Open Scope list_scope.
Local Open Scope Z_scope.

(** ** JavaScript string and array primitives used by the sources *)

Module Js.

(** [String.prototype.trim] strips WhiteSpace and LineTerminator code units;
    below 256 these are TAB, LF, VT, FF, CR, SPACE and NBSP. *)
Definition is_whitespace (c : ascii) : bool :=
  let n := N_of_ascii c in
  ((9 <=? n) && (n <=? 13) || (n =? 32) || (n =? 160))%N.

Fixpoint trimStart (s : string) : string :=
  match s with
  | EmptyString => EmptyString
  | String c r => if is_whitespace c then trimStart r else s
  end.

Definition is_empty (s : string) : bool :=
  match s with EmptyString => true | _ => false end.

Fixpoint trimEnd (s : string) : string :=
  match s with
  | EmptyString => EmptyString
  | String c r =>
      let r' := trimEnd r in
      if is_whitespace c && is_empty r' then EmptyString else String c r'
  end.

Definition trim (s : string) : string := trimEnd (trimStart s).

(** [s.split(sep)] for a one-character separator: never returns an empty
    array, [("").split(sep)] is [[""]]. *)
Fixpoint split (sep : ascii) (s : string) : list string :=
  match s with
  | EmptyString => [EmptyString]
  | String c r =>
      if Ascii.eqb c sep then EmptyString :: split sep r
      else match split sep r with
           | [] => [String c EmptyString]
           | f :: fs => String c f :: fs
           end
  end.

(** [s.length] *)
Definition strlen (s : string) : Z := Z.of_nat (String.length s).

(** [self.indexOf(x)]: position of the first element strictly equal to [x],
    [-1] when there is none. *)
Fixpoint indexOf_from (x : string) (i : Z) (l : list string) : Z :=
  match l with
  | [] => -1
  | y :: r => if String.eqb y x then i else indexOf_from x (i + 1) r
  end.

Definition indexOf (x : string) (l : list string) : Z := indexOf_from x 0 l.

(** [self.filter((x, index, self) => f x index self)] *)
Fixpoint filter_from {A} (f : A -> Z -> bool) (index : Z) (l : list A) : list A :=
  match l with
  | [] => []
  | x :: r =>
      if f x index then x :: filter_from f (index + 1) r
      else filter_from f (index + 1) r
  end.

Definition filter3 {A} (f : A -> Z -> list A -> bool) (self : list A) : list A :=
  filter_from (fun x i => f x i self) 0 self.

(** [l.slice(start, end)] on integer arguments: a negative bound counts from
    the end of the array, both bounds are clamped to [0 .. l.length]. *)
Definition clamp_index (len k : Z) : Z :=
  if k <? 0 then Z.max (len + k) 0 else Z.min k len.

Definition slice {A} (start end_ : Z) (l : list A) : list A :=
  let len := Z.of_nat (length l) in
  let k := clamp_index len start in
  let final := clamp_index len end_ in
  take (Z.to_nat (final - k)) (drop (Z.to_nat k) l).

End Js.

(** ** Tag normalization ([processTags]) *)

Module Tags.
Import Js.

Definition hash : ascii := "#"%char.

Definition processTags (tags : list string) (maxTags : Z) : list string :=
  let allTags :=
    flat_map (fun tag =>
                List.filter (fun t => strlen (trim t) >? 0) (split hash tag))
             tags in
  slice 0 maxTags
    (filter3 (fun tag index self => indexOf tag self =? index)
       (List.filter (fun tag => strlen tag >? 0)
          (map (fun tag => trim tag) allTags))).

(** The parameter default [maxTags = 8]. *)
Definition processTags_default (tags : list string) : list string :=
  processTags tags 8.

(** *** The reference pipeline, following the words of the specification *)

(** Deduplicate keeping the first occurrence of every string; equality of
    strings is exact, hence case-sensitive. *)
Fixpoint dedup_first (seen : gset string) (l : list string) : list string :=
  match l with
  | [] => []
  | x :: r =>
      if decide (x ∈ seen) then dedup_first seen r
      else x :: dedup_first ({[x]} ∪ seen) r
  end.

Definition nonempty (s : string) : bool := negb (is_empty s).

Definition tag_pipeline (raw : list string) (maximum : nat) : list string :=
  let fragments := flat_map (split hash) raw in       (* split on '#' *)
  let kept := List.filter nonempty fragments in       (* discard empty *)
  let trimmed := map trim kept in                     (* trim each *)
  let kept' := List.filter nonempty trimmed in        (* discard post-trim-empty *)
  let unique := dedup_first ∅ kept' in                (* first-seen dedup *)
  take maximum unique.                                (* truncate *)

(** *** Auxiliary notions for the properties of [processTags] *)

(** A string that starts with no white space. *)
Definition starts_clean (s : string) : Prop :=
  match s with
  | EmptyString => True
  | String c _ => is_whitespace c = false
  end.

(** [c] does not occur in [s]. *)
Fixpoint free_of (c : ascii) (s : string) : Prop :=
  match s with
  | EmptyString => True
  | String d r => Ascii.eqb d c = false /\ free_of c r
  end.

(** The fragments that [processTags] deduplicates. *)
Definition fragments (tags : list string) : list string :=
  List.filter nonempty
    (map trim (List.filter (fun t => nonempty (trim t)) (flat_map (split hash) tags))).

(** A normalized tag: not empty, trimmed, free of the delimiter. *)
Definition normal (x : string) : Prop :=
  nonempty x = true /\ trim x = x /\ free_of hash x.

End Tags.

(** ** Data model *)

Module Model.

Inductive Category := branding | poster | social | illustration.
Inductive Status := published | draft | archived.

Definition category_name (c : Category) : string :=
  match c with
  | branding => "branding" | poster => "poster"
  | social => "social" | illustration => "illustration"
  end.

Definition status_name (s : Status) : string :=
  match s with
  | published => "published" | draft => "draft" | archived => "archived"
  end.

Record Project := mkProject {
  _id : string;
  title : string;
  category : Category;
  description : string;
  image : string;
  thumbnail : option string;
  likes : Z;
  views : Z;
  featured : bool;
  status : Status;
  tags : list string;
  clientName : option string;
  projectUrl : option string;
  completedAt : string
}.

(** [{ ...p, likes: n }] and [{ ...p, views: n }] *)
Definition with_likes (n : Z) (p : Project) : Project :=
  mkProject (_id p) (title p) (category p) (description p) (image p)
    (thumbnail p) n (views p) (featured p) (status p) (tags p)
    (clientName p) (projectUrl p) (completedAt p).

Definition with_views (n : Z) (p : Project) : Project :=
  mkProject (_id p) (title p) (category p) (description p) (image p)
    (thumbnail p) (likes p) n (featured p) (status p) (tags p)
    (clientName p) (projectUrl p) (completedAt p).

(** The identifiers of a sequence of projects, [l.map(p => p._id)]. *)
Definition ids (l : list Project) : list string := map _id l.


(** A published poster, for the examples. *)
Definition sample (id : string) (likes_ views_ : Z) : Project :=
  {| _id := id; title := "Poster"; category := poster; description := "";
     image := "/poster.png"; thumbnail := None; likes := likes_; views := views_;
     featured := false; status := published; tags := ["#print#a3"];
     clientName := None; projectUrl := None; completedAt := "2024-01-01" |}.

End Model.

(** ** Persistence collaborator and the three endpoints *)

Module Server.
Import Model.

(** The collection: the documents in their natural order. It is always
    reachable: a failing connection, which every handler answers with its
    500 response, is not part of the model. *)
Definition Store := list Project.

(** A parsed JSON request body. *)
#[local] Set Warnings "-register-all".
Inductive Json :=
| JNull
| JBool (b : bool)
| JNum (q : Q)
| JStr (s : string)
| JArr (items : list Json)
| JObj (fields : list (string * Json)).

(** A response: the JSON payload of a 2xx answer, or a status with the
    [{error}] payload. *)
Inductive Response (A : Type) :=
| Ok200 (payload : A)
| Err (code : Z) (error : string).
Arguments Ok200 {A} payload.
Arguments Err {A} code error.

Record LikePayload := { lp_likes : Z; lp_message : string }.
Record ViewPayload := { vp_views : Z; vp_message : string }.

(** [Project.findById(id)] on a well-formed identifier. An identifier that
    does not cast to the schema's [_id] type, which the driver rejects
    before the lookup and the handlers answer with their 500, is not part
    of the model. *)
Definition findById (id : string) (db : Store) : option Project :=
  List.find (fun p => String.eqb (_id p) id) db.

(** [Project.findByIdAndUpdate(id, update, {new: true})]: the first document
    with that identifier is updated in place and the updated document is
    returned; [null] when there is none. *)
Fixpoint findByIdAndUpdate (id : string) (update : Project -> Project)
    (db : Store) : option Project * Store :=
  match db with
  | [] => (None, [])
  | p :: rest =>
      if String.eqb (_id p) id then (Some (update p), update p :: rest)
      else let '(r, rest') := findByIdAndUpdate id update rest in (r, p :: rest')
  end.

(** [{ $inc: { likes: d } }] and [{ $inc: { views: d } }] *)
Definition inc_likes (d : Z) (p : Project) : Project := with_likes (likes p + d) p.
Definition inc_views (d : Z) (p : Project) : Project := with_views (views p + d) p.

(** Property lookup on a parsed object: [JSON.parse] keeps the last of
    several members with one name. *)
Fixpoint get_field (name : string) (fields : list (string * Json)) : option Json :=
  match fields with
  | [] => None
  | (k, v) :: rest =>
      match get_field name rest with
      | Some v' => Some v'
      | None => if String.eqb k name then Some v else None
      end
  end.

(** [const { liked } = body]: destructuring [null] throws; any other value
    is read for its property [liked], [undefined] ([None]) when absent. *)
Definition destructure_liked (body : Json) : option (option Json) :=
  match body with
  | JNull => None
  | JObj fields => Some (get_field "liked" fields)
  | _ => Some None
  end.

(** Truthiness of a possibly-[undefined] JSON value. *)
Definition truthy (v : option Json) : bool :=
  match v with
  | None => false
  | Some JNull => false
  | Some (JBool b) => b
  | Some (JNum q) => negb (Qnum q =? 0)
  | Some (JStr s) => negb (Js.is_empty s)
  | Some (JArr _) => true
  | Some (JObj _) => true
  end.

(** [POST /api/projects/{id}/like]. [body] is [None] when [request.json()]
    rejects. *)
Definition like_POST (id : string) (body : option Json) (db : Store)
    : Response LikePayload * Store :=
  match body with
  | None => (Err 500 "Failed to update likes", db)
  | Some parsed =>
      match destructure_liked parsed with
      | None => (Err 500 "Failed to update likes", db)
      | Some liked =>
          match findById id db with
          | None => (Err 404 "Project not found", db)
          | Some _ =>
              match findByIdAndUpdate id
                      (inc_likes (if truthy liked then 1 else -1)) db with
              | (Some project, db') =>
                  (Ok200 {| lp_likes := likes project;
                            lp_message := if truthy liked then "Project liked"
                                          else "Project unliked" |}, db')
              | (None, db') => (Err 500 "Failed to update likes", db')
              end
          end
      end
  end.

(** [POST /api/projects/{id}/view] *)
Definition view_POST (id : string) (db : Store) : Response ViewPayload * Store :=
  match findById id db with
  | None => (Err 404 "Project not found", db)
  | Some _ =>
      match findByIdAndUpdate id (inc_views 1) db with
      | (Some project, db') =>
          (Ok200 {| vp_views := views project; vp_message := "View counted" |}, db')
      | (None, db') => (Err 500 "Failed to update views", db')
      end
  end.

(** A request to one of the two mutation endpoints. *)
Inductive MutationRequest :=
| ViewRequest (id : string)
| LikeRequest (id : string) (body : option Json).

Definition serve (db : Store) (r : MutationRequest) : Store :=
  match r with
  | ViewRequest id => snd (view_POST id db)
  | LikeRequest id body => snd (like_POST id body db)
  end.

(** The store after a sequence of requests, served in order. *)
Definition serve_all (db : Store) (rs : list MutationRequest) : Store :=
  fold_left serve rs db.

(** A request that the like endpoint applies as an unlike of [id]. *)
Definition is_unlike_of (id : string) (r : MutationRequest) : bool :=
  match r with
  | LikeRequest id' (Some parsed) =>
      String.eqb id' id &&
      match destructure_liked parsed with
      | Some liked => negb (truthy liked)
      | None => false
      end
  | _ => false
  end.




(** *** Listing endpoint *)

(** The query string after [searchParams.get]: [None] is an absent
    parameter. [q_page] and [q_limit] hold the integer that [parseInt]
    reads from the parameter. *)
Record Query := {
  q_page : option Z;
  q_limit : option Z;
  q_category : option string;
  q_status : option string;
  q_sortBy : option string;
  q_sortOrder : option string
}.

(** [searchParams.get(name) || dflt] *)
Definition or_default (v : option string) (dflt : string) : string :=
  match v with
  | Some s => if Js.is_empty s then dflt else s
  | None => dflt
  end.

Record Filter := { f_status : string; f_category : option string }.

Definition build_filter (status_ : string) (category_ : option string) : Filter :=
  {| f_status := status_;
     f_category := match category_ with
                   | Some c =>
                       if negb (Js.is_empty c) && negb (String.eqb c "all")
                       then Some c else None
                   | None => None
                   end |}.

Definition matches (f : Filter) (p : Project) : bool :=
  String.eqb (status_name (status p)) (f_status f) &&
  match f_category f with
  | Some c => String.eqb (category_name (category p)) c
  | None => true
  end.

(** [sort[field] = order] on an object: an existing key keeps its place
    (field names are not array indices, which an object would order
    first). *)
Fixpoint obj_set (key : string) (v : Z) (obj : list (string * Z)) : list (string * Z) :=
  match obj with
  | [] => [(key, v)]
  | (k, w) :: rest =>
      if String.eqb k key then (k, v) :: rest else (k, w) :: obj_set key v rest
  end.

Fixpoint build_sort_from (index : nat) (sortFields sortOrders : list string)
    (sort : list (string * Z)) : list (string * Z) :=
  match sortFields with
  | [] => sort
  | field :: rest =>
      let order :=
        match sortOrders !! index with
        | Some o => if String.eqb o "desc" then -1 else 1
        | None => 1
        end in
      build_sort_from (S index) rest sortOrders (obj_set field order sort)
  end.

Definition build_sort (sortBy sortOrder : string) : list (string * Z) :=
  build_sort_from 0 (Js.split ","%char sortBy) (Js.split ","%char sortOrder) [].

(** [Project.find(filter)] and [Project.countDocuments(filter)] *)
Definition find (f : Filter) (db : Store) : list Project := List.filter (matches f) db.
Definition countDocuments (f : Filter) (db : Store) : Z :=
  Z.of_nat (length (find f db)).

(** [.skip(n)]: the driver rejects a negative skip. *)
Definition skip (n : Z) (docs : list Project) : option (list Project) :=
  if n <? 0 then None else Some (drop (Z.to_nat n) docs).

(** [.limit(n)]: [0] means no limit, a negative limit is its absolute value. *)
Definition limit (n : Z) (docs : list Project) : list Project :=
  if n =? 0 then docs else take (Z.to_nat (Z.abs n)) docs.

(** [Math.ceil(total / limit)]; not a finite number ([None], serialized as
    [null]) when [limit] is [0]. *)
Definition ceil_quotient (total limit_ : Z) : option Z :=
  if limit_ =? 0 then None
  else Some (Qceiling (inject_Z total / inject_Z limit_)).

Record Pagination := {
  pg_page : Z;
  pg_limit : Z;
  pg_total : Z;
  pg_pages : option Z
}.

Record ListPayload := { ls_projects : list Project; ls_pagination : Pagination }.

(** The filter and the sort object that [GET] builds from a query. *)
Definition query_filter (q : Query) : Filter :=
  build_filter (or_default (q_status q) "published") (q_category q).
Definition query_sort (q : Query) : list (string * Z) :=
  build_sort (or_default (q_sortBy q) "featured,createdAt")
             (or_default (q_sortOrder q) "desc").

Section Listing.

(** [.sort(sort)] is the collaborator's: it reorders the documents that
    match the filter according to the sort object. *)
Variable sortDocs : list (string * Z) -> list Project -> list Project.

(** [GET /api/projects] *)
Definition GET (q : Query) (db : Store) : Response ListPayload :=
  let page := default 1 (q_page q) in
  let limit_ := default 12 (q_limit q) in
  let category_ := q_category q in
  let status_ := or_default (q_status q) "published" in
  let sortBy := or_default (q_sortBy q) "featured,createdAt" in
  let sortOrder := or_default (q_sortOrder q) "desc" in
  let skip_ := (page - 1) * limit_ in
  let filter_ := build_filter status_ category_ in
  let sort := build_sort sortBy sortOrder in
  match skip skip_ (sortDocs sort (find filter_ db)) with
  | None => Err 500 "Failed to fetch projects"
  | Some rest =>
      let projects := limit limit_ rest in
      let total := countDocuments filter_ db in
      Ok200 {| ls_projects := projects;
               ls_pagination := {| pg_page := page;
                                   pg_limit := limit_;
                                   pg_total := total;
                                   pg_pages := ceil_quotient total limit_ |} |}
  end.

End Listing.

End Server.

(** ** Client state controller ([DynamicPortfolio]) *)

(** The [ApiResponse] interface of the component. *)
Module Api.

Record Pagination := { page : Z; limit : Z; total : Z; pages : Z }.
Record ApiResponse := { projects : list Model.Project; pagination : Pagination }.

(** The outcome of [await fetch(...)] followed by [response.json()]:
    the promise rejects, or it resolves with a response whose [ok] flag
    tells a 2xx status and whose body parses to [json] ([None] when
    [response.json()] rejects). *)
Inductive FetchResult (A : Type) :=
| NetworkError
| HttpResponse (ok : bool) (json : option A).
Arguments NetworkError {A}.
Arguments HttpResponse {A} ok json.

(** The request failed: the promise rejected, the status is not 2xx, or
    the body does not parse. *)
Definition failed {A} (r : FetchResult A) : Prop :=
  match r with
  | HttpResponse true (Some _) => False
  | _ => True
  end.

End Api.

Module Client.
Import Model.
Import Api(FetchResult, NetworkError, HttpResponse).

(** The [useState] cells of the component. *)
Record State := mkState {
  projects : list Project;
  selectedImage : option Project;
  filter : string;
  hoveredIndex : option Z;
  loading : bool;
  likedProjects : gset string;
  currentPage : Z;
  totalPages : Z;
  isLoadingMore : bool;
  hasMore : bool;
  pendingRequests : gset string
}.

Definition initial : State :=
  {| projects := []; selectedImage := None; filter := "all";
     hoveredIndex := None; loading := true; likedProjects := ∅;
     currentPage := 1; totalPages := 1; isLoadingMore := false;
     hasMore := true; pendingRequests := ∅ |}.

(** The setters; each takes the updater function [prev => ...]. *)
Definition setProjects (f : list Project -> list Project) (s : State) : State :=
  mkState (f (projects s)) (selectedImage s) (filter s) (hoveredIndex s)
    (loading s) (likedProjects s) (currentPage s) (totalPages s)
    (isLoadingMore s) (hasMore s) (pendingRequests s).
Definition setSelectedImage (v : option Project) (s : State) : State :=
  mkState (projects s) v (filter s) (hoveredIndex s)
    (loading s) (likedProjects s) (currentPage s) (totalPages s)
    (isLoadingMore s) (hasMore s) (pendingRequests s).
Definition setFilter (v : string) (s : State) : State :=
  mkState (projects s) (selectedImage s) v (hoveredIndex s)
    (loading s) (likedProjects s) (currentPage s) (totalPages s)
    (isLoadingMore s) (hasMore s) (pendingRequests s).
Definition setLoading (v : bool) (s : State) : State :=
  mkState (projects s) (selectedImage s) (filter s) (hoveredIndex s)
    v (likedProjects s) (currentPage s) (totalPages s)
    (isLoadingMore s) (hasMore s) (pendingRequests s).
Definition setLikedProjects (f : gset string -> gset string) (s : State) : State :=
  mkState (projects s) (selectedImage s) (filter s) (hoveredIndex s)
    (loading s) (f (likedProjects s)) (currentPage s) (totalPages s)
    (isLoadingMore s) (hasMore s) (pendingRequests s).
Definition setCurrentPage (v : Z) (s : State) : State :=
  mkState (projects s) (selectedImage s) (filter s) (hoveredIndex s)
    (loading s) (likedProjects s) v (totalPages s)
    (isLoadingMore s) (hasMore s) (pendingRequests s).
Definition setTotalPages (v : Z) (s : State) : State :=
  mkState (projects s) (selectedImage s) (filter s) (hoveredIndex s)
    (loading s) (likedProjects s) (currentPage s) v
    (isLoadingMore s) (hasMore s) (pendingRequests s).
Definition setIsLoadingMore (v : bool) (s : State) : State :=
  mkState (projects s) (selectedImage s) (filter s) (hoveredIndex s)
    (loading s) (likedProjects s) (currentPage s) (totalPages s)
    v (hasMore s) (pendingRequests s).
Definition setHasMore (v : bool) (s : State) : State :=
  mkState (projects s) (selectedImage s) (filter s) (hoveredIndex s)
    (loading s) (likedProjects s) (currentPage s) (totalPages s)
    (isLoadingMore s) v (pendingRequests s).
Definition setPendingRequests (f : gset string -> gset string) (s : State) : State :=
  mkState (projects s) (selectedImage s) (filter s) (hoveredIndex s)
    (loading s) (likedProjects s) (currentPage s) (totalPages s)
    (isLoadingMore s) (hasMore s) (f (pendingRequests s)).

(** [new Set(prev).add(k)] and [newSet.delete(k)] *)
Definition set_add (k : string) (prev : gset string) : gset string := {[k]} ∪ prev.
Definition set_delete (k : string) (prev : gset string) : gset string := prev ∖ {[k]}.
Definition set_has (k : string) (s : gset string) : bool := bool_decide (k ∈ s).

(** The request keys. *)
Definition listKey (page : Z) (filter_ : string) : string :=
  pretty page +:+ "-" +:+ filter_.
Definition viewKey (id : string) : string := "view-" +:+ id.
Definition likeKey (id : string) : string := "like-" +:+ id.

(** A network call issued by the controller. *)
Inductive NetCall :=
| GetProjects (params : list (string * string))
| PostView (id : string)
| PostLike (id : string) (liked : bool).

(** What an in-flight request resumes with: the variables its handler
    closed over. *)
Inductive Pending :=
| FetchPending (page : Z) (filter_ : string)
| ViewPending (project : Project)
| LikePending (project : Project) (isLiked : bool).

Definition requestKey (k : Pending) : string :=
  match k with
  | FetchPending page filter_ => listKey page filter_
  | ViewPending project => viewKey (_id project)
  | LikePending project _ => likeKey (_id project)
  end.

(** [params.set(key, v)] on the [URLSearchParams]. *)
Fixpoint params_set (key v : string) (ps : list (string * string)) : list (string * string) :=
  match ps with
  | [] => [(key, v)]
  | (k, w) :: rest =>
      if String.eqb k key then (k, v) :: rest else (k, w) :: params_set key v rest
  end.

Definition listing_params (page : Z) (filter_ : string) : list (string * string) :=
  let params := [("status", "published"); ("page", pretty page); ("limit", "12");
                 ("sortBy", "featured,createdAt"); ("sortOrder", "desc")] in
  if negb (String.eqb filter_ "all") then params_set "category" filter_ params
  else params.

(** *** [fetchProjects] *)

(** Up to [await fetch(...)]. *)
Definition fetchProjects (page : Z) (filter_ : string) (isLoadMore : bool)
    (s : State) : State * option (NetCall * Pending) :=
  let requestKey := listKey page filter_ in
  if set_has requestKey (pendingRequests s) then (s, None)
  else
    let s := setPendingRequests (set_add requestKey) s in
    let s := if isLoadMore then setIsLoadingMore true s else setLoading true s in
    (s, Some (GetProjects (listing_params page filter_), FetchPending page filter_)).

(** The merge of a page beyond the first into the loaded projects. *)
Definition merge_page (data_projects prev : list Project) : list Project :=
  let existingIds : gset string := list_to_set (map (fun p => _id p) prev) in
  let newProjects :=
    List.filter (fun p => negb (set_has (_id p) existingIds)) data_projects in
  prev ++ newProjects.

(** The [finally] block. *)
Definition fetchProjects_finally (requestKey : string) (s : State) : State :=
  setPendingRequests (set_delete requestKey)
    (setIsLoadingMore false (setLoading false s)).

(** From the resolution of [fetch] on. *)
Definition fetchProjects_settle (page : Z) (filter_ : string)
    (r : FetchResult Api.ApiResponse) (s : State) : State :=
  let requestKey := listKey page filter_ in
  match r with
  | HttpResponse true (Some data) =>
      let s :=
        if page =? 1 then setProjects (fun _ => Api.projects data) s
        else setProjects (merge_page (Api.projects data)) s in
      let s := setTotalPages (Api.pages (Api.pagination data)) s in
      let s := setHasMore (page <? Api.pages (Api.pagination data)) s in
      fetchProjects_finally requestKey s
  | _ => fetchProjects_finally requestKey s
  end.

(** *** [handleProjectClick] *)

Definition handleProjectClick (project : Project) (s : State)
    : State * option (NetCall * Pending) :=
  let requestKey := viewKey (_id project) in
  if set_has requestKey (pendingRequests s) then (s, None)
  else (setPendingRequests (set_add requestKey) s,
        Some (PostView (_id project), ViewPending project)).

Definition bump_views (project : Project) (prev : list Project) : list Project :=
  map (fun p =>
         if String.eqb (_id p) (_id project) && (views p =? views project)
         then with_views (views p + 1) p
         else p) prev.

Definition handleProjectClick_settle {A} (project : Project)
    (r : FetchResult A) (s : State) : State :=
  let requestKey := viewKey (_id project) in
  let s :=
    match r with
    | HttpResponse _ _ => setProjects (bump_views project) s
    | NetworkError => s
    end in
  let s := setPendingRequests (set_delete requestKey) s in
  setSelectedImage (Some project) s.

(** *** [handleLike] *)

Definition handleLike (project : Project) (s : State)
    : State * option (NetCall * Pending) :=
  let requestKey := likeKey (_id project) in
  if set_has requestKey (pendingRequests s) then (s, None)
  else
    let isLiked := set_has (_id project) (likedProjects s) in
    let newLikedState :=
      if isLiked then set_delete (_id project) (likedProjects s)
      else set_add (_id project) (likedProjects s) in
    let s := setLikedProjects (fun _ => newLikedState) s in
    let s := setPendingRequests (set_add requestKey) s in
    (s, Some (PostLike (_id project) (negb isLiked), LikePending project isLiked)).

Definition reconcile_likes (project : Project) (result_likes : Z)
    (prev : list Project) : list Project :=
  map (fun p =>
         if String.eqb (_id p) (_id project) then with_likes result_likes p
         else p) prev.

Definition rollback_like (project : Project) (isLiked : bool)
    (prev : gset string) : gset string :=
  if isLiked then set_add (_id project) prev else set_delete (_id project) prev.

Definition handleLike_settle (project : Project) (isLiked : bool)
    (r : FetchResult Server.LikePayload) (s : State) : State :=
  let requestKey := likeKey (_id project) in
  let s :=
    match r with
    | HttpResponse true (Some result) =>
        setProjects (reconcile_likes project (Server.lp_likes result)) s
    | _ => setLikedProjects (rollback_like project isLiked) s
    end in
  setPendingRequests (set_delete requestKey) s.

(** *** [handleFilterChange], the effect on [filter], [loadMoreProjects] *)

Definition handleFilterChange (newFilter : string) (s : State) : State :=
  setHasMore true (setProjects (fun _ => [])
    (setCurrentPage 1 (setFilter newFilter s))).

(** [useEffect(() => { fetchProjects(1, filter) }, [filter])] *)
Definition filter_effect (s : State) : State * option (NetCall * Pending) :=
  fetchProjects 1 (filter s) false s.

Definition loadMoreProjects (s : State) : State * option (NetCall * Pending) :=
  if (currentPage s <? totalPages s) && negb (isLoadingMore s) then
    let nextPage := currentPage s + 1 in
    fetchProjects nextPage (filter s) true (setCurrentPage nextPage s)
  else (s, None).

(** *** The session: the component together with its requests in flight *)

Record Session := {
  ui : State;
  inflight : list Pending;
  calls : list NetCall           (* every network call issued so far *)
}.

Definition issue (w : Session) (r : State * option (NetCall * Pending)) : Session :=
  match r with
  | (s, Some (c, k)) =>
      {| ui := s; inflight := inflight w ++ [k]; calls := calls w ++ [c] |}
  | (s, None) => {| ui := s; inflight := inflight w; calls := calls w |}
  end.

(** The outcome with which a request in flight completes. *)
Inductive Outcome :=
| FetchOutcome (r : FetchResult Api.ApiResponse)
| ViewOutcome (r : FetchResult Server.ViewPayload)
| LikeOutcome (r : FetchResult Server.LikePayload).

Definition settle (k : Pending) (o : Outcome) (s : State) : option State :=
  match k, o with
  | FetchPending page filter_, FetchOutcome r =>
      Some (fetchProjects_settle page filter_ r s)
  | ViewPending project, ViewOutcome r =>
      Some (handleProjectClick_settle project r s)
  | LikePending project isLiked, LikeOutcome r =>
      Some (handleLike_settle project isLiked r s)
  | _, _ => None
  end.

Inductive Event :=
| FilterChange (newFilter : string)
| LoadMore
| ProjectClick (project : Project)
| Like (project : Project)
| Settle (i : nat) (o : Outcome).

(** One event. Handlers and effects run from the latest render, so the
    state they close over is the current one. The effect on [filter] runs
    when the filter has changed. A [Settle] that names no request in
    flight, or one of another kind, is not an event of the session. *)
Definition step (w : Session) (e : Event) : Session :=
  match e with
  | FilterChange newFilter =>
      let s := handleFilterChange newFilter (ui w) in
      if String.eqb newFilter (filter (ui w)) then issue w (s, None)
      else issue w (filter_effect s)
  | LoadMore => issue w (loadMoreProjects (ui w))
  | ProjectClick project => issue w (handleProjectClick project (ui w))
  | Like project => issue w (handleLike project (ui w))
  | Settle i o =>
      match inflight w !! i with
      | Some k =>
          match settle k o (ui w) with
          | Some s =>
              {| ui := s; inflight := delete i (inflight w); calls := calls w |}
          | None => w
          end
      | None => w
      end
  end.

(** The session once mounted: the effect has run on the initial state. *)
Definition mounted : Session :=
  issue {| ui := initial; inflight := []; calls := [] |} (filter_effect initial).

Definition run (w : Session) (es : list Event) : Session := fold_left step es w.

Definition is_listing_call (page : Z) (filter_ : string) (c : NetCall) : bool :=
  match c with
  | GetProjects params =>
      bool_decide (params = listing_params page filter_)
  | _ => false
  end.

(** The result of a handler run on [s]: a request is issued only under a
    key that is not pending, and the key is then added; otherwise the
    pending set is as it was. *)
Definition dispatched (s : State) (r : State * option (NetCall * Pending)) : Prop :=
  match r with
  | (s1, Some (_, k)) =>
      (requestKey k ∉ pendingRequests s) /\
      pendingRequests s1 = set_add (requestKey k) (pendingRequests s)
  | (s1, None) => pendingRequests s1 = pendingRequests s
  end.

(** A handler run on [s] issues a listing call only for a page and filter
    whose key is not pending in [s]. *)
Definition listing_guarded (s : State) (r : State * option (NetCall * Pending)) : Prop :=
  match r with
  | (_, Some (GetProjects params, _)) =>
      exists page filter_,
        params = listing_params page filter_ /\
        (listKey page filter_ ∉ pendingRequests s)
  | _ => True
  end.

(** The pending set holds the keys of the requests in flight, each once. *)
Definition consistent (w : Session) : Prop :=
  pendingRequests (ui w) = list_to_set (map requestKey (inflight w)) /\
  NoDup (map requestKey (inflight w)).

(** How many network calls for the listing of [page] under [filter_] were
    issued. *)
Definition listing_calls (page : Z) (filter_ : string) (w : Session) : nat :=
  length (List.filter (is_listing_call page filter_) (calls w)).

End Client.

(** ** Further parts of the sources *)

(** *** Tag colours ([getTagColor]) *)

Module Presentation.

Definition colors : list string :=
  [ "from-purple-500/20 to-pink-500/20 border-purple-500/30";
    "from-blue-500/20 to-cyan-500/20 border-blue-500/30";
    "from-green-500/20 to-emerald-500/20 border-green-500/30";
    "from-orange-500/20 to-red-500/20 border-orange-500/30";
    "from-yellow-500/20 to-amber-500/20 border-yellow-500/30";
    "from-indigo-500/20 to-purple-500/20 border-indigo-500/30";
    "from-pink-500/20 to-rose-500/20 border-pink-500/30";
    "from-teal-500/20 to-green-500/20 border-teal-500/30" ].

(** [arr[i]] for an integer [i]: [undefined] ([None]) outside the array. *)
Definition at_index {A} (arr : list A) (i : Z) : option A :=
  if i <? 0 then None else arr !! Z.to_nat i.

(** [colors[index % colors.length]]; [%] is the remainder that takes the
    sign of the dividend. *)
Definition getTagColor (index : Z) : option string :=
  at_index colors (Z.rem index (Z.of_nat (length colors))).

(** The colours of the tags shown in the detail view:
    [processTags(tags, 8).map((tag, index) => getTagColor(index))]. *)
Definition tag_colors (tags : list string) : list (option string) :=
  imap (fun index _ => getTagColor (Z.of_nat index)) (Tags.processTags tags 8).

End Presentation.

(** *** Creation endpoint ([POST /api/projects]) and notions for the
    mutation and listing endpoints *)

Module Projects.
Import Model Server.

(** The answer of the creation endpoint. *)
Inductive CreateResponse :=
| Created (project : Project)                (* status 201 *)
| CreateErr (code : Z) (error : string).

(** [const { title, category, description, image } = body]: the four
    members, [None] when destructuring throws. *)
Definition destructure_required (body : Json)
    : option (option Json * option Json * option Json * option Json) :=
  match body with
  | JNull => None
  | JObj fields =>
      Some (get_field "title" fields, get_field "category" fields,
            get_field "description" fields, get_field "image" fields)
  | _ => Some (None, None, None, None)
  end.

Section Creation.

(** [new Project(body)] followed by [project.save()]: the stored document,
    [None] when the schema's casting or validation, or the insertion,
    throws. The schema is the collaborator's. *)
Variable save : Json -> Store -> option Project.

(** [POST /api/projects]. [body] is [None] when [request.json()] rejects. *)
Definition POST (body : option Json) (db : Store) : CreateResponse * Store :=
  match body with
  | None => (CreateErr 500 "Failed to create project", db)
  | Some parsed =>
      match destructure_required parsed with
      | None => (CreateErr 500 "Failed to create project", db)
      | Some (title_, category_, description_, image_) =>
          if negb (truthy title_) || negb (truthy category_) ||
             negb (truthy description_) || negb (truthy image_)
          then (CreateErr 400 "Missing required fields", db)
          else match save parsed db with
               | Some project => (Created project, db ++ [project])
               | None => (CreateErr 500 "Failed to create project", db)
               end
      end
  end.

End Creation.

(** A request that the view endpoint counts for [id]. *)
Definition is_view_of (id : string) (r : MutationRequest) : bool :=
  match r with
  | ViewRequest id' => String.eqb id' id
  | _ => false
  end.

(** A request that the like endpoint applies as a like of [id]. *)
Definition is_like_of (id : string) (r : MutationRequest) : bool :=
  match r with
  | LikeRequest id' (Some parsed) =>
      String.eqb id' id &&
      match destructure_liked parsed with
      | Some liked => truthy liked
      | None => false
      end
  | _ => false
  end.

Definition count_of (f : MutationRequest -> bool) (rs : list MutationRequest) : Z :=
  Z.of_nat (length (List.filter f rs)).

(** Two documents that differ at most in their counters. *)
Definition same_but_counters (p p' : Project) : Prop :=
  with_likes (likes p) (with_views (views p) p') = p.

(** The query [q] asked for page [p]. *)
Definition page_query (q : Query) (p : Z) : Query :=
  {| q_page := Some p; q_limit := q_limit q; q_category := q_category q;
     q_status := q_status q; q_sortBy := q_sortBy q;
     q_sortOrder := q_sortOrder q |}.

(** The query [q] with another category parameter. *)
Definition category_query (q : Query) (c : option string) : Query :=
  {| q_page := q_page q; q_limit := q_limit q; q_category := c;
     q_status := q_status q; q_sortBy := q_sortBy q;
     q_sortOrder := q_sortOrder q |}.

(** The projects of a listing answer, none for an error. *)
Definition listed (r : Response ListPayload) : list Project :=
  match r with
  | Ok200 payload => ls_projects payload
  | Err _ _ => []
  end.

(** The order that the sort object gives to the field at [index]. *)
Definition order_at (sortOrders : list string) (index : nat) : Z :=
  match sortOrders !! index with
  | Some o => if String.eqb o "desc" then -1 else 1
  | None => 1
  end.

(** The [liked] member of a JSON body: that of an object, none for any
    other value, [null] included. *)
Definition liked_member (body : Json) : option Json :=
  match body with
  | JObj fields => get_field "liked" fields
  | _ => None
  end.

Definition is_digit (c : ascii) : bool :=
  let n := N_of_ascii c in ((48 <=? n) && (n <=? 57))%N.

Fixpoint all_digits (s : string) : bool :=
  match s with
  | EmptyString => true
  | String c r => is_digit c && all_digits r
  end.

(** A field name that an object keeps as an own key in insertion order:
    not [__proto__], whose assignment creates no key, and not an
    integer-like key, which an object lists before the others (every
    non-empty string of digits is excluded). *)
Definition plain_key (field : string) : bool :=
  negb (String.eqb field "__proto__") &&
  (Js.is_empty field || negb (all_digits field)).

End Projects.

(** *** Notions for the sessions of the controller *)

Module Sessions.
Import Model Api Client.

(** The page that a listing call asks for is at least 1, and its limit
    is 12. *)
Definition well_paged (c : NetCall) : Prop :=
  match c with
  | GetProjects params =>
      exists page filter_, params = listing_params page filter_ /\ 1 <= page
  | _ => True
  end.

(** A listing response lists no identifier twice. *)
Definition clean_outcome (o : Outcome) : Prop :=
  match o with
  | FetchOutcome (HttpResponse true (Some data)) => NoDup (ids (Api.projects data))
  | _ => True
  end.

Definition clean_event (e : Event) : Prop :=
  match e with
  | Settle _ o => clean_outcome o
  | _ => True
  end.

(** A successful response to a like request. *)
Definition like_ok (n : Z) (message : string) : FetchResult Server.LikePayload :=
  HttpResponse true (Some {| Server.lp_likes := n; Server.lp_message := message |}).

End Sessions.

(** * Properties *)

(** ** Tag normalization *)

Module TagsFacts.
Import Js Tags.

(** *** Strings *)

Lemma strlen_positive s : (strlen s >? 0) = nonempty s.
Proof. destruct s; reflexivity. Qed.

Lemma trimEnd_idem s : trimEnd (trimEnd s) = trimEnd s.
Proof.
  induction s as [|c r IH]; simpl; [reflexivity|].
  destruct (is_whitespace c && is_empty (trimEnd r)) eqn:E; simpl; [reflexivity|].
  rewrite IH, E. reflexivity.
Qed.

Lemma trimStart_clean s : starts_clean (trimStart s).
Proof.
  induction s as [|c r IH]; simpl; [exact I|].
  destruct (is_whitespace c) eqn:E; [exact IH|exact E].
Qed.

Lemma trimStart_of_clean s : starts_clean s -> trimStart s = s.
Proof. destruct s as [|c r]; simpl; [reflexivity|]. intros ->. reflexivity. Qed.

Lemma trimEnd_clean s : starts_clean s -> starts_clean (trimEnd s).
Proof.
  destruct s as [|c r]; simpl; [trivial|]. intros E. rewrite E. simpl. exact E.
Qed.

Lemma trim_idem s : trim (trim s) = trim s.
Proof.
  unfold trim.
  rewrite (trimStart_of_clean (trimEnd (trimStart s))).
  - apply trimEnd_idem.
  - apply trimEnd_clean, trimStart_clean.
Qed.

(** *** Splitting *)

Lemma split_free sep s : Forall (free_of sep) (split sep s).
Proof.
  induction s as [|c r IH]; simpl.
  - repeat constructor.
  - destruct (Ascii.eqb c sep) eqn:E.
    + constructor; [exact I|exact IH].
    + destruct (split sep r) as [|f fs]; [repeat constructor; exact E|].
      inversion IH; subst. constructor; [split; assumption|assumption].
Qed.

Lemma split_of_free sep s : free_of sep s -> split sep s = [s].
Proof.
  induction s as [|c r IH]; simpl; [reflexivity|].
  intros [E H]. rewrite E, (IH H). reflexivity.
Qed.

Lemma trimStart_free c s : free_of c s -> free_of c (trimStart s).
Proof.
  induction s as [|d r IH]; simpl; [trivial|].
  intros [E H]. destruct (is_whitespace d); [auto|split; assumption].
Qed.

Lemma trimEnd_free c s : free_of c s -> free_of c (trimEnd s).
Proof.
  induction s as [|d r IH]; simpl; [trivial|].
  intros [E H]. destruct (is_whitespace d && is_empty (trimEnd r)); simpl; auto.
Qed.

Lemma trim_free c s : free_of c s -> free_of c (trim s).
Proof. intros H. apply trimEnd_free, trimStart_free, H. Qed.

(** *** The two filters around [trim] *)

Lemma flat_map_filter {A B} (f : B -> bool) (g : A -> list B) l :
  flat_map (fun x => List.filter f (g x)) l = List.filter f (flat_map g l).
Proof.
  induction l as [|x l IH]; simpl; [reflexivity|].
  rewrite List.filter_app, IH. reflexivity.
Qed.

Lemma filter_trim_filter (l : list string) :
  List.filter nonempty (map trim (List.filter (fun t => nonempty (trim t)) l)) =
  List.filter nonempty (map trim (List.filter nonempty l)).
Proof.
  induction l as [|t l IH]; simpl; [reflexivity|].
  destruct (nonempty (trim t)) eqn:E.
  - assert (nonempty t = true) as ->.
    { destruct t; [discriminate E|reflexivity]. }
    simpl. rewrite E, IH. reflexivity.
  - destruct (nonempty t); simpl; [rewrite E|]; exact IH.
Qed.

(** *** Deduplication by [indexOf] is first-seen deduplication *)

Lemma indexOf_from_app_notin x i (pre suf : list string) :
  x ∉ pre ->
  indexOf_from x i (pre ++ suf) = indexOf_from x (i + Z.of_nat (length pre)) suf.
Proof.
  revert i. induction pre as [|y pre IH]; intros i Hx; simpl.
  - f_equal. lia.
  - destruct (String.eqb_spec y x) as [->|_].
    + exfalso. apply Hx. left.
    + rewrite IH by (intros H; apply Hx; right; exact H). f_equal. lia.
Qed.

Lemma indexOf_from_app_in x i (pre suf : list string) :
  x ∈ pre -> 0 <= i ->
  i <= indexOf_from x i (pre ++ suf) < i + Z.of_nat (length pre).
Proof.
  revert i. induction pre as [|y pre IH]; intros i Hx Hi.
  - inversion Hx.
  - simpl. destruct (String.eqb_spec y x) as [->|Hne]; [lia|].
    assert (x ∈ pre) as Hin.
    { apply elem_of_cons in Hx as [->|Hx]; [congruence|exact Hx]. }
    specialize (IH (i + 1) Hin). lia.
Qed.

Lemma dedup_by_index (pre suf : list string) :
  filter_from (fun x i => indexOf x (pre ++ suf) =? i)
    (Z.of_nat (length pre)) suf
  = dedup_first (list_to_set pre) suf.
Proof.
  revert pre. induction suf as [|x r IH]; intros pre; simpl; [reflexivity|].
  assert (pre ++ x :: r = (pre ++ [x]) ++ r) as Eapp by (rewrite <- app_assoc; reflexivity).
  assert (Z.of_nat (length pre) + 1 = Z.of_nat (length (pre ++ [x]))) as Elen
    by (rewrite length_app; simpl; lia).
  assert (({[x]} ∪ list_to_set pre : gset string) = list_to_set (pre ++ [x])) as Eset
    by (apply set_eq; intros y; rewrite list_to_set_app_L; simpl;
        rewrite !elem_of_union, elem_of_singleton, elem_of_empty; tauto).
  destruct (decide (x ∈ (list_to_set pre : gset string))) as [Hin|Hnin].
  - rewrite elem_of_list_to_set in Hin.
    pose proof (indexOf_from_app_in x 0 pre (x :: r) Hin ltac:(lia)) as Hb.
    unfold indexOf at 1.
    destruct (Z.eqb_spec (indexOf_from x 0 (pre ++ x :: r)) (Z.of_nat (length pre)))
      as [E|_]; [lia|].
    rewrite Elen, Eapp, IH.
    (* [x] is already among the seen ones *)
    f_equal. apply set_eq. intros y.
    rewrite !elem_of_list_to_set, elem_of_app, list_elem_of_singleton.
    split; [intros [H| ->]; assumption|intros H; left; exact H].
  - rewrite elem_of_list_to_set in Hnin.
    unfold indexOf at 1.
    rewrite (indexOf_from_app_notin x 0 pre (x :: r) Hnin). simpl.
    rewrite String.eqb_refl, Z.eqb_refl.
    rewrite Elen, Eapp, IH, Eset. reflexivity.
Qed.

Lemma filter3_dedup (l : list string) :
  filter3 (fun tag index self => indexOf tag self =? index) l = dedup_first ∅ l.
Proof. exact (dedup_by_index [] l). Qed.

(** *** First-seen deduplication *)

Lemma dedup_first_elem seen l x :
  x ∈ dedup_first seen l -> x ∈ l /\ x ∉ seen.
Proof.
  revert seen. induction l as [|y r IH]; intros seen; simpl.
  - intros H. inversion H.
  - destruct (decide (y ∈ seen)) as [Hy|Hy].
    + intros H. destruct (IH _ H) as [H1 H2]. split; [right; exact H1|exact H2].
    + intros H. apply elem_of_cons in H as [->|H].
      * split; [left|exact Hy].
      * destruct (IH _ H) as [H1 H2]. split; [right; exact H1|].
        intros Hs. apply H2. apply elem_of_union. right. exact Hs.
Qed.

Lemma dedup_first_NoDup seen l : NoDup (dedup_first seen l).
Proof.
  revert seen. induction l as [|y r IH]; intros seen; simpl; [constructor|].
  destruct (decide (y ∈ seen)); [apply IH|].
  constructor; [|apply IH].
  intros H. apply dedup_first_elem in H as [_ H].
  apply H, elem_of_union. left. apply elem_of_singleton. reflexivity.
Qed.

Lemma dedup_first_of_NoDup seen l :
  NoDup l -> (forall x, x ∈ l -> x ∉ seen) -> dedup_first seen l = l.
Proof.
  intros Hnd. revert seen. induction Hnd as [|y r Hy Hnd IH]; intros seen Hs; simpl.
  - reflexivity.
  - destruct (decide (y ∈ seen)) as [H|_].
    + exfalso. exact (Hs y (list_elem_of_here _ _) H).
    + f_equal. apply IH. intros x Hx Hin.
      apply elem_of_union in Hin as [Hin|Hin].
      * apply elem_of_singleton in Hin. subst x. exact (Hy Hx).
      * exact (Hs x (list_elem_of_further _ _ _ Hx) Hin).
Qed.

(** *** [slice] *)

Lemma slice_prefix {A} (n : nat) (l : list A) : slice 0 (Z.of_nat n) l = take n l.
Proof.
  unfold slice, clamp_index. simpl.
  destruct (Z.ltb_spec (Z.of_nat n) 0) as [H|_]; [lia|].
  rewrite (Z.min_l 0) by lia. rewrite Z.sub_0_r. change (Z.to_nat 0) with 0%nat.
  rewrite drop_0.
  destruct (Z.min_spec (Z.of_nat n) (Z.of_nat (length l))) as [[H ->]|[H ->]].
  - rewrite Nat2Z.id. reflexivity.
  - rewrite Nat2Z.id, (take_ge l (length l)), (take_ge l n) by lia. reflexivity.
Qed.

Lemma slice_all {A} (limit : Z) (l : list A) :
  Z.of_nat (length l) <= limit -> slice 0 limit l = l.
Proof.
  intros H. rewrite <- (Z2Nat.id limit) by lia.
  rewrite slice_prefix. apply take_ge. lia.
Qed.

Lemma slice_sublist {A} (a b : Z) (l : list A) : slice a b l `sublist_of` l.
Proof.
  unfold slice. etransitivity; [apply sublist_take|apply sublist_drop].
Qed.

(** *** The shape of [processTags] *)

Lemma processTags_unfold tags maxTags :
  processTags tags maxTags = slice 0 maxTags (dedup_first ∅ (fragments tags)).
Proof.
  unfold processTags, fragments.
  rewrite filter3_dedup. do 2 f_equal.
  rewrite (List.filter_ext _ _ strlen_positive).
  f_equal. f_equal.
  rewrite <- flat_map_filter. apply flat_map_ext. intros tag.
  apply List.filter_ext. intros t. apply strlen_positive.
Qed.

Lemma fragments_normal tags : Forall normal (fragments tags).
Proof.
  apply Forall_forall. intros x Hx. unfold fragments in Hx.
  apply list_elem_of_In, filter_In in Hx as [Hx Hne].
  apply in_map_iff in Hx as (t & <- & Ht).
  apply filter_In in Ht as [Ht _].
  apply in_flat_map in Ht as (tag & _ & Ht).
  split; [exact Hne|split; [apply trim_idem|]].
  apply trim_free.
  pose proof (split_free hash tag) as Hall.
  rewrite Forall_forall in Hall. apply Hall, list_elem_of_In, Ht.
Qed.

Lemma processTags_normal tags maxTags : Forall normal (processTags tags maxTags).
Proof.
  rewrite processTags_unfold. apply Forall_forall. intros x Hx.
  pose proof (fragments_normal tags) as Hall. rewrite Forall_forall in Hall.
  apply Hall.
  pose proof (elem_of_sublist _ _ _ Hx (slice_sublist 0 maxTags _)) as Hd.
  apply dedup_first_elem in Hd as [Hd _]. exact Hd.
Qed.

Lemma processTags_NoDup tags maxTags : NoDup (processTags tags maxTags).
Proof.
  rewrite processTags_unfold.
  eapply sublist_NoDup; [apply dedup_first_NoDup|apply slice_sublist].
Qed.

Lemma fragments_of_normal l : Forall normal l -> fragments l = l.
Proof.
  unfold fragments. induction 1 as [|x l (Hne & Htrim & Hfree) _ IH]; [reflexivity|].
  simpl. rewrite (split_of_free _ _ Hfree). simpl.
  rewrite Htrim, Hne. simpl. rewrite Htrim, Hne. f_equal. exact IH.
Qed.

(** C3. [processTags] is the reference pipeline of the specification: split
    every entry on '#', discard the empty fragments, trim each fragment,
    discard the fragments that trimming emptied, deduplicate exactly
    (case-sensitively) keeping the first occurrence, truncate to the
    maximum count; on ["#a#b"; "c"; "#a"] with limit 8 the result is
    ["a"; "b"; "c"]. *)
Theorem processTags_is_tag_pipeline :
  (forall (tags : list string) (maximum : nat),
      processTags tags (Z.of_nat maximum) = tag_pipeline tags maximum) /\
  processTags ["#a#b"; "c"; "#a"] 8 = ["a"; "b"; "c"].
Proof.
  split; [|vm_compute; reflexivity].
  intros tags maximum.
  rewrite processTags_unfold, slice_prefix. unfold tag_pipeline, fragments.
  rewrite filter_trim_filter. reflexivity.
Qed.

(** C4. Normalizing an output of the normalization again, with a limit no
    smaller than its length, returns it unchanged, in the same order. *)
Theorem processTags_idempotent (tags : list string) (maxTags limit : Z) :
  Z.of_nat (length (processTags tags maxTags)) <= limit ->
  processTags (processTags tags maxTags) limit = processTags tags maxTags.
Proof.
  intros Hlimit.
  rewrite (processTags_unfold (processTags tags maxTags)).
  rewrite (fragments_of_normal _ (processTags_normal tags maxTags)).
  rewrite dedup_first_of_NoDup.
  - apply slice_all, Hlimit.
  - apply processTags_NoDup.
  - intros x _. apply not_elem_of_empty.
Qed.

Lemma processTags_idempotent_witness :
  Z.of_nat (length (processTags [" x #y"; "#x"; "z#"] 2)) <= 2 /\
  processTags (processTags [" x #y"; "#x"; "z#"] 2) 2 = ["x"; "y"].
Proof.
  split; [vm_compute; discriminate|].
  rewrite (processTags_idempotent [" x #y"; "#x"; "z#"] 2 2).
  - vm_compute. reflexivity.
  - vm_compute. discriminate.
Defined.

End TagsFacts.

(** ** The mutation endpoints *)

Module ServerFacts.
Import Model Server.

Lemma findByIdAndUpdate_found id update db p :
  findById id db = Some p ->
  exists db', findByIdAndUpdate id update db = (Some (update p), db').
Proof.
  unfold findById. induction db as [|d rest IH]; simpl; [discriminate|].
  destruct (String.eqb (_id d) id).
  - intros [= ->]. eexists. reflexivity.
  - intros H. destruct (IH H) as [db' ->]. eexists. reflexivity.
Qed.

Lemma findByIdAndUpdate_store id update db :
  Forall2 (fun p p' => p' = p \/ (_id p = id /\ p' = update p))
          db (snd (findByIdAndUpdate id update db)).
Proof.
  induction db as [|d rest IH]; simpl; [constructor|].
  destruct (String.eqb_spec (_id d) id) as [E|_]; simpl.
  - constructor; [right; split; [exact E|reflexivity]|].
    apply Forall_Forall2_diag, Forall_forall. intros; left; reflexivity.
  - destruct (findByIdAndUpdate id update rest) as [r rest']. simpl in *.
    constructor; [left; reflexivity|exact IH].
Qed.

Lemma findById_updated id update db p :
  (forall d, _id (update d) = _id d) ->
  findById id db = Some p ->
  findById id (snd (findByIdAndUpdate id update db)) = Some (update p).
Proof.
  intros Hid. unfold findById. induction db as [|d rest IH]; simpl; [discriminate|].
  destruct (String.eqb (_id d) id) eqn:E.
  - intros [= ->]. simpl. rewrite Hid, E. reflexivity.
  - intros H. specialize (IH H).
    destruct (findByIdAndUpdate id update rest) as [r rest']. simpl in *.
    rewrite E. exact IH.
Qed.








(** C10, as stated: on an existing project every body without a [liked]
    member, or with a falsy one, is answered as an unlike. The body [null]
    refutes it: it has no [liked] member, destructuring it throws, and the
    endpoint answers 500. *)
Lemma like_POST_null_body_rejected :
  ~ (forall (id : string) (parsed : Json) (db : Store) (p : Project),
        findById id db = Some p ->
        truthy (Projects.liked_member parsed) = false ->
        exists db',
          like_POST id (Some parsed) db =
            (Ok200 {| lp_likes := likes p - 1; lp_message := "Project unliked" |}, db')).
Proof.
  intros claim.
  destruct (claim "p1" JNull [sample "p1" 3 0] (sample "p1" 3 0) eq_refl eq_refl)
    as [db' H].
  discriminate H.
Qed.

(** C10, amended. On an existing project, a body that parses to a value
    other than [null] (for such a value destructuring succeeds) without a
    [liked] member, or with a falsy one, is not rejected: the endpoint
    answers 200 with the likes decremented by one and the message
    "Project unliked", and the stored counter is the decremented one. *)
Theorem like_POST_falsy_is_unlike (id : string) (parsed : Json)
    (db : Store) (p : Project) :
  findById id db = Some p ->
  parsed <> JNull ->
  truthy (Projects.liked_member parsed) = false ->
  exists db',
    like_POST id (Some parsed) db =
      (Ok200 {| lp_likes := likes p - 1; lp_message := "Project unliked" |}, db') /\
    findById id db' = Some (with_likes (likes p - 1) p).
Proof.
  intros Hfound Hnull Hfalsy.
  assert (destructure_liked parsed = Some (Projects.liked_member parsed)) as Hliked
    by (destruct parsed; [contradiction|reflexivity..]).
  pose proof (findById_updated id (inc_likes (-1)) db p (fun _ => eq_refl) Hfound) as Hdb.
  destruct (findByIdAndUpdate_found id (inc_likes (-1)) db p Hfound) as [db' Hupd].
  exists db'. unfold like_POST. rewrite Hliked, Hfound, Hfalsy, Hupd.
  rewrite Hupd in Hdb. split; [reflexivity|exact Hdb].
Qed.

Lemma like_POST_falsy_is_unlike_witness :
  exists db',
    like_POST "p1" (Some (JObj [("note", JStr "hi")])) [sample "p0" 4 0; sample "p1" 0 7] =
      (Ok200 {| lp_likes := 0 - 1; lp_message := "Project unliked" |}, db') /\
    findById "p1" db' = Some (with_likes (0 - 1) (sample "p1" 0 7)).
Proof.
  apply (like_POST_falsy_is_unlike "p1" (JObj [("note", JStr "hi")])
           [sample "p0" 4 0; sample "p1" 0 7] (sample "p1" 0 7));
    [reflexivity|discriminate|reflexivity].
Defined.

End ServerFacts.

(** ** The listing endpoint *)

Module ListingFacts.
Import Model Server.

(** [Math.ceil] of the quotient of two integers, the divisor positive, is
    the integer ceiling of the quotient. *)
Lemma ceil_quotient_spec total L :
  1 <= L ->
  exists pages, ceil_quotient total L = Some pages /\
                (pages - 1) * L < total <= pages * L.
Proof.
  intros HL. unfold ceil_quotient.
  destruct (Z.eqb_spec L 0) as [->|_]; [lia|].
  eexists. split; [reflexivity|].
  pose proof (Qle_ceiling (inject_Z total / inject_Z L)) as Hle.
  pose proof (Qceiling_lt (inject_Z total / inject_Z L)) as Hlt.
  set (c := Qceiling (inject_Z total / inject_Z L)) in *. clearbody c.
  destruct L as [|l|l]; [lia| |lia].
  unfold Qle, Qlt, Qdiv, Qmult, Qinv, inject_Z in *. simpl in *.
  lia.
Qed.

Lemma ceil_quotient_formula total L :
  1 <= L -> ceil_quotient total L = Some ((total + L - 1) / L).
Proof.
  intros HL. destruct (ceil_quotient_spec total L HL) as (pages & -> & Hlo & Hhi).
  f_equal. apply Z.div_unique with (r := total + L - 1 - L * pages); lia.
Qed.

Section Listing.
Variable sortDocs : list (string * Z) -> list Project -> list Project.

(** C6. A listing request whose page [p] and limit [L] are at least one is
    answered with the slice of the matching, sorted documents that starts
    at offset [(p-1)*L] and has at most [L] projects; the pagination echoes
    the page and the limit, reports the number of matching documents as
    the total, and [pages] is the ceiling of [total / L]. *)
Theorem GET_pagination (q : Query) (db : Store) :
  let p := default 1 (q_page q) in
  let L := default 12 (q_limit q) in
  let matching := sortDocs (query_sort q) (find (query_filter q) db) in
  let total := countDocuments (query_filter q) db in
  1 <= p -> 1 <= L ->
  exists slice_ pages,
    GET sortDocs q db =
      Ok200 {| ls_projects := slice_;
               ls_pagination := {| pg_page := p; pg_limit := L;
                                   pg_total := total;
                                   pg_pages := Some pages |} |} /\
    slice_ = take (Z.to_nat L) (drop (Z.to_nat ((p - 1) * L)) matching) /\
    Z.of_nat (length slice_) <= L /\
    (pages - 1) * L < total <= pages * L /\
    pages = (total + L - 1) / L.
Proof.
  intros p L matching total Hp HL.
  destruct (ceil_quotient_spec total L HL) as (pages & Hpages & Hceil).
  exists (take (Z.to_nat L) (drop (Z.to_nat ((p - 1) * L)) matching)), pages.
  split; [|split; [reflexivity|split; [|split; [exact Hceil|]]]].
  - unfold GET. fold p L. unfold skip, limit.
    destruct (Z.ltb_spec ((p - 1) * L) 0) as [Hneg|_]; [nia|].
    destruct (Z.eqb_spec L 0) as [H0|_]; [lia|].
    rewrite Z.abs_eq by lia.
    fold (query_filter q) (query_sort q). fold total. rewrite Hpages.
    reflexivity.
  - rewrite length_take. lia.
  - pose proof (ceil_quotient_formula total L HL) as Hf.
    rewrite Hpages in Hf. injection Hf as ->. reflexivity.
Qed.

(** When the collaborator's sort only reorders the documents, a store
    with unique identifiers is listed without repeating an identifier. *)
Hypothesis sortDocs_permutes : forall sort docs, sortDocs sort docs ≡ₚ docs.

Lemma GET_projects_NoDup (q : Query) (db : Store) payload :
  NoDup (ids db) ->
  GET sortDocs q db = Ok200 payload ->
  NoDup (ids (ls_projects payload)).
Proof.
  intros Hdb. unfold GET, skip.
  destruct (_ <? 0); [discriminate|]. intros [= <-]. simpl.
  assert (NoDup (ids (find (query_filter q) db))) as Hfound.
  { eapply sublist_NoDup; [exact Hdb|]. apply (fmap_sublist _id).
    unfold find. clear Hdb. induction db as [|d rest IH]; simpl; [constructor|].
    destruct (matches _ d); [apply sublist_skip|apply sublist_cons]; exact IH. }
  assert (NoDup (ids (sortDocs (query_sort q) (find (query_filter q) db)))) as Hsorted.
  { unfold ids. rewrite (sortDocs_permutes _ _). exact Hfound. }
  eapply sublist_NoDup; [exact Hsorted|]. apply (fmap_sublist _id).
  unfold limit. destruct (_ =? 0); [apply sublist_drop|].
  etransitivity; [apply sublist_take|apply sublist_drop].
Qed.

End Listing.

Lemma GET_pagination_witness :
  let q := {| q_page := Some 2; q_limit := Some 2; q_category := Some "poster";
              q_status := None; q_sortBy := None; q_sortOrder := None |} in
  let db := [sample "a" 0 0; sample "b" 0 0; sample "c" 0 0] in
  GET (fun _ docs => docs) q db =
    Ok200 {| ls_projects := [sample "c" 0 0];
             ls_pagination := {| pg_page := 2; pg_limit := 2; pg_total := 3;
                                 pg_pages := Some 2 |} |}.
Proof.
  intros q db.
  destruct (GET_pagination (fun _ docs => docs) q db) as (slice_ & pages & -> & -> & _ & _ & ->).
  - simpl. lia.
  - simpl. lia.
  - reflexivity.
Defined.

End ListingFacts.

(** ** The client state controller *)

Module ClientFacts.
Import Model Api Client.

Lemma set_has_true k (s : gset string) : set_has k s = true <-> k ∈ s.
Proof. unfold set_has. apply bool_decide_eq_true. Qed.

Lemma set_has_false k (s : gset string) : set_has k s = false <-> k ∉ s.
Proof. unfold set_has. apply bool_decide_eq_false. Qed.

Lemma set_delete_gone k (s : gset string) : k ∉ set_delete k s.
Proof.
  unfold set_delete. intros H. apply elem_of_difference in H as [_ H].
  apply H, elem_of_singleton. reflexivity.
Qed.

Lemma set_add_here k (s : gset string) : k ∈ set_add k s.
Proof. unfold set_add. apply elem_of_union. left. apply elem_of_singleton. reflexivity. Qed.

(** *** The view flow *)

(** What [bump_views] does to each loaded project: it counts one view on
    those with the clicked identifier whose count is still the one the
    click captured, and leaves the others alone. *)
Lemma bump_views_guarded project prev :
  Forall2 (fun p p' =>
             (p' = p /\ ~ (_id p = _id project /\ views p = views project)) \/
             (_id p = _id project /\ views p = views project /\
              p' = with_views (views p + 1) p))
          prev (bump_views project prev).
Proof.
  unfold bump_views. induction prev as [|p prev IH]; simpl; constructor; [|exact IH].
  destruct (String.eqb_spec (_id p) (_id project)) as [E|E];
    destruct (Z.eqb_spec (views p) (views project)) as [V|V]; simpl.
  - right. auto.
  - left. split; [reflexivity|]. intros [_ H]. exact (V H).
  - left. split; [reflexivity|]. intros [H _]. exact (E H).
  - left. split; [reflexivity|]. intros [H _]. exact (E H).
Qed.

(** A rejected [fetch] leaves the loaded projects alone. *)
Lemma view_network_error_keeps_projects project (s : State) :
  projects (handleProjectClick_settle project
              (NetworkError : FetchResult Server.ViewPayload) s) = projects s.
Proof. reflexivity. Qed.

(** A resolved [fetch] bumps the counter whatever the status: the handler
    never reads [response.ok]. *)
Lemma view_response_bumps project ok json (s : State) :
  projects (handleProjectClick_settle project
              (HttpResponse ok json : FetchResult Server.ViewPayload) s)
  = bump_views project (projects s).
Proof. reflexivity. Qed.

(** C2, at a failing response. The project "p1" is loaded with 5 views and
    clicked; the view endpoint answers with an error status (not ok). The
    local counter is 6 afterwards: the view was counted on a failed
    response. *)
Theorem view_counted_on_failed_response :
  let project := sample "p1" 0 5 in
  let s0 := setProjects (fun _ => [project]) initial in
  let s1 := fst (handleProjectClick project s0) in
  let r : FetchResult Server.ViewPayload := HttpResponse false None in
  snd (handleProjectClick project s0) =
    Some (PostView "p1", ViewPending project) /\
  failed r /\
  projects (handleProjectClick_settle project r s1) = [sample "p1" 0 6].
Proof. vm_compute. repeat split. Qed.

(** *** The like flow *)

(** C5. When the like request fails after the optimistic flip, the
    membership of the project's identifier in the liked set is again what
    it was before the action, whatever happened to the state meanwhile,
    the membership of the other identifiers is not touched, and the loaded
    projects, hence the likes counter, are not modified; settled on the
    state that the action left, the liked set is the one before the
    action. *)
Theorem like_failure_rolls_back (project : Project) (s s1 cur : State)
    (call : NetCall) (isLiked : bool) (r : FetchResult Server.LikePayload) :
  handleLike project s = (s1, Some (call, LikePending project isLiked)) ->
  failed r ->
  (_id project ∈ likedProjects s1 <-> _id project ∉ likedProjects s) /\
  (_id project ∈ likedProjects (handleLike_settle project isLiked r cur)
     <-> _id project ∈ likedProjects s) /\
  (forall id, id <> _id project ->
     (id ∈ likedProjects (handleLike_settle project isLiked r cur)
        <-> id ∈ likedProjects cur)) /\
  projects (handleLike_settle project isLiked r cur) = projects cur /\
  likedProjects (handleLike_settle project isLiked r s1) = likedProjects s.
Proof.
  intros Hdispatch Hfailed. unfold handleLike in Hdispatch.
  destruct (set_has (likeKey (_id project)) (pendingRequests s)); [discriminate|].
  injection Hdispatch as <- _ <-.
  assert (handleLike_settle project (set_has (_id project) (likedProjects s)) r =
          fun st => setPendingRequests (set_delete (likeKey (_id project)))
                      (setLikedProjects
                         (rollback_like project (set_has (_id project) (likedProjects s))) st))
    as ->.
  { unfold handleLike_settle. destruct r as [|[|] [result|]]; simpl in Hfailed;
      [reflexivity|contradiction|reflexivity..]. }
  simpl. unfold rollback_like, set_add, set_delete.
  destruct (set_has (_id project) (likedProjects s)) eqn:E.
  - apply set_has_true in E. repeat split.
    + intros H. set_solver.
    + intros H. set_solver.
    + intros _. exact E.
    + intros _. set_solver.
    + set_solver.
    + set_solver.
    + apply set_eq. intros x. destruct (decide (x = _id project)); set_solver.
  - apply set_has_false in E. repeat split.
    + intros _. exact E.
    + intros _. set_solver.
    + set_solver.
    + intros H. contradiction.
    + set_solver.
    + set_solver.
    + apply set_eq. intros x. destruct (decide (x = _id project)); set_solver.
Qed.

Lemma like_failure_rolls_back_witness :
  let project := sample "p1" 3 0 in
  let s1 := fst (handleLike project initial) in
  let r : FetchResult Server.LikePayload := HttpResponse false None in
  handleLike project initial =
    (s1, Some (PostLike "p1" true, LikePending project false)) /\
  failed r /\
  ("p1" ∈ likedProjects s1) /\
  ("p1" ∉ likedProjects (handleLike_settle project false r s1)) /\
  projects (handleLike_settle project false r s1) = projects s1.
Proof.
  intros project s1 r.
  assert (handleLike project initial =
            (s1, Some (PostLike "p1" true, LikePending project false))) as H
    by reflexivity.
  assert (failed r) as Hr by exact I.
  destruct (like_failure_rolls_back project initial s1 s1 _ false r H Hr)
    as (Hflip & Hback & _ & Hprojects & _).
  split; [exact H|]. split; [exact Hr|]. split; [|split].
  - apply Hflip. apply not_elem_of_empty.
  - intros Hin. apply Hback in Hin. exact (not_elem_of_empty _ Hin).
  - exact Hprojects.
Defined.

(** *** The listing flow *)

Lemma merge_page_spec data_projects prev :
  merge_page data_projects prev =
  prev ++ base.filter (fun p => _id p ∉ ids prev) data_projects.
Proof.
  unfold merge_page. f_equal.
  induction data_projects as [|p l IH]; simpl; [reflexivity|].
  rewrite filter_cons, IH.
  destruct (decide (_id p ∉ ids prev)) as [H|H].
  - replace (set_has (_id p) _) with false; [reflexivity|].
    symmetry. apply set_has_false. rewrite elem_of_list_to_set. exact H.
  - replace (set_has (_id p) _) with true; [reflexivity|].
    symmetry. apply set_has_true. rewrite elem_of_list_to_set.
    destruct (decide (_id p ∈ ids prev)); [assumption|contradiction].
Qed.

Lemma merge_page_NoDup data_projects prev :
  NoDup (ids prev) -> NoDup (ids data_projects) ->
  NoDup (ids (merge_page data_projects prev)).
Proof.
  intros Hprev Hdata. rewrite merge_page_spec. unfold ids. rewrite map_app.
  apply NoDup_app. split; [exact Hprev|]. split.
  - intros x Hx Hin.
    apply list_elem_of_In, in_map_iff in Hin as (p & <- & Hp).
    apply list_elem_of_In, list_elem_of_filter in Hp as [Hfresh _].
    exact (Hfresh Hx).
  - eapply sublist_NoDup; [exact Hdata|].
    apply (fmap_sublist _id), sublist_filter.
Qed.

Lemma settle_first_page filter_ data (s : State) :
  projects (fetchProjects_settle 1 filter_ (HttpResponse true (Some data)) s)
  = Api.projects data.
Proof. reflexivity. Qed.

Lemma settle_later_page page filter_ data (s : State) :
  page <> 1 ->
  projects (fetchProjects_settle page filter_ (HttpResponse true (Some data)) s)
  = merge_page (Api.projects data) (projects s).
Proof.
  intros H. unfold fetchProjects_settle.
  destruct (Z.eqb_spec page 1) as [E|_]; [contradiction|reflexivity].
Qed.

(** C7. A successful fetch of page 1 replaces the loaded projects with the
    response; a successful fetch of a later page keeps the loaded projects
    and appends, in order, those projects of the response whose identifier
    is not among the loaded ones. Hence after page 1 and then a later page,
    each response listing an identifier once, no identifier is loaded
    twice, even when the later response repeats identifiers of page 1. *)
Theorem fetch_success_merges (s : State) (filter1 filter2 : string) (page : Z)
    (data1 data2 : ApiResponse) :
  page <> 1 ->
  let s1 := fetchProjects_settle 1 filter1 (HttpResponse true (Some data1)) s in
  let s2 := fetchProjects_settle page filter2 (HttpResponse true (Some data2)) s1 in
  projects s1 = Api.projects data1 /\
  projects s2 =
    projects s1 ++
    base.filter (fun p => _id p ∉ ids (projects s1)) (Api.projects data2) /\
  (NoDup (ids (Api.projects data1)) -> NoDup (ids (Api.projects data2)) ->
   NoDup (ids (projects s2))).
Proof.
  intros Hpage s1 s2.
  assert (projects s1 = Api.projects data1) as E1 by apply settle_first_page.
  assert (projects s2 = merge_page (Api.projects data2) (projects s1)) as E2
    by (apply settle_later_page, Hpage).
  split; [exact E1|]. split.
  - rewrite E2. apply merge_page_spec.
  - intros H1 H2. rewrite E2, E1. apply merge_page_NoDup; assumption.
Qed.

Lemma fetch_success_merges_witness :
  let data1 := {| Api.projects := [sample "a" 0 0; sample "b" 0 0];
                  pagination := {| page := 1; limit := 2; total := 3; pages := 2 |} |} in
  let data2 := {| Api.projects := [sample "b" 0 0; sample "c" 0 0];
                  pagination := {| page := 2; limit := 2; total := 3; pages := 2 |} |} in
  let s1 := fetchProjects_settle 1 "all" (HttpResponse true (Some data1)) initial in
  let s2 := fetchProjects_settle 2 "all" (HttpResponse true (Some data2)) s1 in
  2 <> 1 /\
  projects s2 = [sample "a" 0 0; sample "b" 0 0; sample "c" 0 0] /\
  NoDup (ids (projects s2)).
Proof.
  intros data1 data2 s1 s2.
  assert (2 <> 1) as Hpage by lia.
  destruct (fetch_success_merges initial "all" "all" 2 data1 data2 Hpage)
    as (_ & _ & Hnodup).
  split; [exact Hpage|]. split; [vm_compute; reflexivity|].
  apply Hnodup; vm_compute; repeat constructor; intros H;
    repeat (apply elem_of_cons in H as [H|H]; [discriminate H|]); inversion H.
Defined.

(** *** The pending-request set *)

Lemma fetchProjects_dispatched page filter_ isLoadMore s :
  dispatched s (fetchProjects page filter_ isLoadMore s).
Proof.
  unfold fetchProjects.
  destruct (set_has (listKey page filter_) (pendingRequests s)) eqn:E; simpl.
  - reflexivity.
  - apply set_has_false in E. split; [exact E|]. destruct isLoadMore; reflexivity.
Qed.

Lemma handleProjectClick_dispatched project s :
  dispatched s (handleProjectClick project s).
Proof.
  unfold handleProjectClick.
  destruct (set_has (viewKey (_id project)) (pendingRequests s)) eqn:E; simpl.
  - reflexivity.
  - apply set_has_false in E. split; [exact E|reflexivity].
Qed.

Lemma handleLike_dispatched project s : dispatched s (handleLike project s).
Proof.
  unfold handleLike.
  destruct (set_has (likeKey (_id project)) (pendingRequests s)) eqn:E; simpl.
  - reflexivity.
  - apply set_has_false in E. split; [exact E|reflexivity].
Qed.

Lemma settle_pending k o cur s' :
  settle k o cur = Some s' ->
  pendingRequests s' = set_delete (requestKey k) (pendingRequests cur).
Proof.
  destruct k as [page filter_|project|project isLiked], o as [r|r|r]; simpl;
    try discriminate; intros [= <-].
  - unfold fetchProjects_settle.
    destruct r as [|[|] [data|]]; try reflexivity.
    destruct (page =? 1); reflexivity.
  - destruct r; reflexivity.
  - unfold handleLike_settle. destruct r as [|[|] [result|]]; reflexivity.
Qed.

(** C8. Each of the three actions issues its request under a key that it
    has just added to the pending set, and whatever the outcome with which
    the request settles, the pending set afterwards is the one at that
    moment without the key: the key is not retained. *)
Theorem pending_key_released (k : Pending) (o : Outcome) (cur s' : State) :
  settle k o cur = Some s' ->
  (requestKey k ∉ pendingRequests s') /\
  pendingRequests s' = set_delete (requestKey k) (pendingRequests cur) /\
  (forall page filter_ isLoadMore s,
      dispatched s (fetchProjects page filter_ isLoadMore s)) /\
  (forall project s, dispatched s (handleProjectClick project s)) /\
  (forall project s, dispatched s (handleLike project s)).
Proof.
  intros H. apply settle_pending in H.
  split; [rewrite H; apply set_delete_gone|].
  split; [exact H|].
  split; [exact fetchProjects_dispatched|].
  split; [exact handleProjectClick_dispatched|exact handleLike_dispatched].
Qed.

Lemma pending_key_released_witness :
  let project := sample "p1" 0 5 in
  let s1 := fst (handleLike project initial) in
  let r : FetchResult Server.LikePayload := HttpResponse false None in
  settle (LikePending project false) (LikeOutcome r) s1
    = Some (handleLike_settle project false r s1) /\
  (likeKey "p1" ∈ pendingRequests s1) /\
  (likeKey "p1" ∉ pendingRequests (handleLike_settle project false r s1)).
Proof.
  intros project s1 r.
  assert (settle (LikePending project false) (LikeOutcome r) s1
          = Some (handleLike_settle project false r s1)) as H by reflexivity.
  split; [exact H|]. split.
  - apply set_add_here.
  - exact (proj1 (pending_key_released _ _ _ _ H)).
Defined.

(** *** Sessions: the pending set is the set of keys in flight *)

Lemma issue_consistent w r :
  consistent w -> dispatched (ui w) r -> consistent (issue w r).
Proof.
  intros [Hset Hnd] Hr. destruct r as [s1 [[c k]|]]; simpl in *.
  - destruct Hr as [Hfresh Hs1]. unfold consistent. simpl.
    rewrite map_app, list_to_set_app_L. simpl. split.
    + rewrite Hs1, Hset. unfold set_add. apply set_eq. intros x.
      rewrite !elem_of_union, elem_of_singleton, elem_of_empty. tauto.
    + apply NoDup_app. split; [exact Hnd|]. split; [|apply NoDup_singleton].
      intros x Hx Hin. apply list_elem_of_singleton in Hin. subst x.
      apply Hfresh. rewrite Hset. apply elem_of_list_to_set. exact Hx.
  - unfold consistent. simpl. rewrite Hr. split; assumption.
Qed.

Lemma filter_change_dispatched newFilter s :
  dispatched s (filter_effect (handleFilterChange newFilter s)).
Proof.
  pose proof (fetchProjects_dispatched 1 (filter (handleFilterChange newFilter s))
                false (handleFilterChange newFilter s)) as H.
  unfold filter_effect. destruct (fetchProjects _ _ _ _) as [s1 [[c k]|]]; exact H.
Qed.

Lemma loadMoreProjects_dispatched s : dispatched s (loadMoreProjects s).
Proof.
  unfold loadMoreProjects.
  destruct ((currentPage s <? totalPages s) && negb (isLoadingMore s)).
  - pose proof (fetchProjects_dispatched (currentPage s + 1) (filter s) true
                  (setCurrentPage (currentPage s + 1) s)) as H.
    destruct (fetchProjects _ _ _ _) as [s1 [[c k]|]]; exact H.
  - reflexivity.
Qed.

Lemma delete_keys (l : list Pending) i k :
  l !! i = Some k -> NoDup (map requestKey l) ->
  NoDup (map requestKey (delete i l)) /\
  (list_to_set (map requestKey (delete i l)) : gset string)
  = set_delete (requestKey k) (list_to_set (map requestKey l)).
Proof.
  intros Hi Hnd. rewrite delete_take_drop.
  pose proof (take_drop_middle l i k Hi) as El.
  set (a := take i l) in *. set (b := drop (S i) l) in *. clearbody a b.
  subst l. clear Hi.
  rewrite map_app in Hnd. simpl in Hnd.
  apply NoDup_app in Hnd as (H1 & H2 & H3).
  apply NoDup_cons in H3 as [H3 H4].
  split.
  - rewrite map_app. apply NoDup_app. split; [exact H1|]. split; [|exact H4].
    intros x Hx Hin. apply (H2 x Hx). right. exact Hin.
  - rewrite !map_app. simpl. rewrite !list_to_set_app_L. simpl.
    unfold set_delete. apply set_eq. intros x.
    rewrite elem_of_difference, !elem_of_union, !elem_of_singleton,
      !elem_of_list_to_set.
    split.
    + intros [H|H]; (split; [tauto|]); intros ->.
      * apply (H2 _ H). left.
      * exact (H3 H).
    + intros [[H|[H|H]] Hne]; [left; exact H|contradiction|right; exact H].
Qed.

Lemma step_consistent w e : consistent w -> consistent (step w e).
Proof.
  intros Hw. destruct e as [newFilter| |project|project|i o]; unfold step.
  - destruct (String.eqb newFilter (filter (ui w))).
    + apply issue_consistent; [exact Hw|]. simpl. reflexivity.
    + apply issue_consistent; [exact Hw|apply filter_change_dispatched].
  - apply issue_consistent; [exact Hw|apply loadMoreProjects_dispatched].
  - apply issue_consistent; [exact Hw|apply handleProjectClick_dispatched].
  - apply issue_consistent; [exact Hw|apply handleLike_dispatched].
  - destruct (inflight w !! i) as [k|] eqn:Hi; [|exact Hw].
    destruct (settle k o (ui w)) as [s'|] eqn:Hs; [|exact Hw].
    destruct Hw as [Hset Hnd].
    destruct (delete_keys _ _ _ Hi Hnd) as [Hnd' Hset'].
    unfold consistent. simpl. split; [|exact Hnd'].
    rewrite (settle_pending _ _ _ _ Hs), Hset, Hset'. reflexivity.
Qed.

Lemma mounted_consistent : consistent mounted.
Proof.
  unfold mounted. apply issue_consistent.
  - split; [reflexivity|constructor].
  - apply fetchProjects_dispatched.
Qed.

Lemma run_consistent es : forall w, consistent w -> consistent (run w es).
Proof.
  induction es as [|e es IH]; intros w Hw; simpl; [exact Hw|].
  apply IH, step_consistent, Hw.
Qed.

(** *** Listing calls *)

Lemma listing_params_unfold page filter_ :
  listing_params page filter_ =
  [("status", "published"); ("page", pretty page); ("limit", "12");
   ("sortBy", "featured,createdAt"); ("sortOrder", "desc")]
  ++ (if String.eqb filter_ "all" then [] else [("category", filter_)]).
Proof. unfold listing_params. destruct (String.eqb filter_ "all"); reflexivity. Qed.

Lemma listing_params_inj page filter_ page' filter' :
  listing_params page filter_ = listing_params page' filter' ->
  page = page' /\ filter_ = filter'.
Proof.
  rewrite !listing_params_unfold. intros H.
  apply app_inj_1 in H as [H1 H2]; [|reflexivity].
  injection H1 as Hpage. apply (inj pretty) in Hpage. split; [exact Hpage|].
  destruct (String.eqb_spec filter_ "all") as [->|_],
           (String.eqb_spec filter' "all") as [->|_];
    try discriminate; [reflexivity|congruence].
Qed.

Lemma fetchProjects_listing_guarded page filter_ isLoadMore s0 s :
  pendingRequests s = pendingRequests s0 ->
  listing_guarded s0 (fetchProjects page filter_ isLoadMore s).
Proof.
  intros Hs. unfold fetchProjects.
  destruct (set_has (listKey page filter_) (pendingRequests s)) eqn:E; simpl; [exact I|].
  exists page, filter_. split; [reflexivity|].
  rewrite <- Hs. apply set_has_false, E.
Qed.

Lemma listing_calls_issue page filter_ w r :
  listing_guarded (ui w) r ->
  listKey page filter_ ∈ pendingRequests (ui w) ->
  listing_calls page filter_ (issue w r) = listing_calls page filter_ w.
Proof.
  intros Hr Hkey. destruct r as [s1 [[c k]|]]; [|reflexivity].
  unfold listing_calls. simpl. rewrite List.filter_app, length_app. simpl.
  destruct c as [params|id|id liked]; simpl; try lia.
  destruct Hr as (page' & filter' & -> & Hfresh).
  destruct (bool_decide (listing_params page' filter' = listing_params page filter_)) eqn:E;
    [|simpl; lia].
  apply bool_decide_eq_true in E. apply listing_params_inj in E as [-> ->].
  contradiction.
Qed.

Lemma inflight_pending w k :
  consistent w -> k ∈ inflight w -> requestKey k ∈ pendingRequests (ui w).
Proof.
  intros [-> _] Hk. apply elem_of_list_to_set, list_elem_of_In, in_map, list_elem_of_In, Hk.
Qed.

Lemma listing_calls_step page filter_ w e :
  listKey page filter_ ∈ pendingRequests (ui w) ->
  listing_calls page filter_ (step w e) = listing_calls page filter_ w.
Proof.
  intros Hkey. destruct e as [newFilter| |project|project|i o]; unfold step.
  - destruct (String.eqb newFilter (filter (ui w))); [reflexivity|].
    apply listing_calls_issue; [|exact Hkey].
    apply fetchProjects_listing_guarded. reflexivity.
  - apply listing_calls_issue; [|exact Hkey]. unfold loadMoreProjects.
    destruct (_ && _); [|exact I].
    apply fetchProjects_listing_guarded. reflexivity.
  - apply listing_calls_issue; [|exact Hkey]. unfold handleProjectClick.
    destruct (set_has _ _); exact I.
  - apply listing_calls_issue; [|exact Hkey]. unfold handleLike.
    destruct (set_has _ _); exact I.
  - destruct (inflight w !! i) as [k|]; [|reflexivity].
    destruct (settle k o (ui w)); reflexivity.
Qed.

Lemma fetchProjects_fresh page filter_ isLoadMore s :
  listKey page filter_ ∉ pendingRequests s ->
  fetchProjects page filter_ isLoadMore s =
  ((if isLoadMore then setIsLoadingMore true else setLoading true)
     (setPendingRequests (set_add (listKey page filter_)) s),
   Some (GetProjects (listing_params page filter_), FetchPending page filter_)).
Proof.
  intros H. apply set_has_false in H. unfold fetchProjects. rewrite H.
  destruct isLoadMore; reflexivity.
Qed.

Lemma loadMoreProjects_busy s :
  isLoadingMore s = true -> loadMoreProjects s = (s, None).
Proof.
  intros H. unfold loadMoreProjects. rewrite H, andb_false_r. reflexivity.
Qed.

Lemma load_more_twice w0 :
  currentPage (ui w0) < totalPages (ui w0) ->
  isLoadingMore (ui w0) = false ->
  listKey (currentPage (ui w0) + 1) (filter (ui w0)) ∉ pendingRequests (ui w0) ->
  calls (run w0 [LoadMore; LoadMore]) =
  calls w0 ++ [GetProjects (listing_params (currentPage (ui w0) + 1) (filter (ui w0)))].
Proof.
  intros Hpage Hidle Hfresh.
  assert (loadMoreProjects (ui w0) =
          (setIsLoadingMore true
             (setPendingRequests
                (set_add (listKey (currentPage (ui w0) + 1) (filter (ui w0))))
                (setCurrentPage (currentPage (ui w0) + 1) (ui w0))),
           Some (GetProjects (listing_params (currentPage (ui w0) + 1) (filter (ui w0))),
                 FetchPending (currentPage (ui w0) + 1) (filter (ui w0))))) as E1.
  { unfold loadMoreProjects.
    rewrite (proj2 (Z.ltb_lt _ _) Hpage), Hidle.
    exact (fetchProjects_fresh _ _ true (setCurrentPage _ (ui w0)) Hfresh). }
  unfold run. cbn [fold_left].
  unfold step at 2. rewrite E1. unfold issue at 1.
  unfold step. cbn [ui]. rewrite loadMoreProjects_busy by reflexivity.
  reflexivity.
Qed.

(** C9. While a listing request for a page and filter is in flight, in any
    session reached from the mounted component: [fetchProjects] for the
    same page and filter returns at once, with no network call and no
    change of state, and no event at all adds a network call for that page
    and filter. Two consecutive "load more" triggers, the first of which
    issues its request, make exactly one network call, the one for the
    next page. *)
Theorem listing_request_deduplicated (es : list Event) (page : Z) (filter_ : string) :
  FetchPending page filter_ ∈ inflight (run mounted es) ->
  (forall isLoadMore,
      fetchProjects page filter_ isLoadMore (ui (run mounted es))
      = (ui (run mounted es), None)) /\
  (forall e,
      listing_calls page filter_ (step (run mounted es) e)
      = listing_calls page filter_ (run mounted es)) /\
  (forall w0,
      currentPage (ui w0) < totalPages (ui w0) ->
      isLoadingMore (ui w0) = false ->
      listKey (currentPage (ui w0) + 1) (filter (ui w0)) ∉ pendingRequests (ui w0) ->
      calls (run w0 [LoadMore; LoadMore]) =
      calls w0 ++ [GetProjects (listing_params (currentPage (ui w0) + 1) (filter (ui w0)))]).
Proof.
  intros Hin.
  pose proof (run_consistent es mounted mounted_consistent) as Hc.
  pose proof (inflight_pending _ _ Hc Hin) as Hkey. simpl in Hkey.
  split; [|split].
  - intros isLoadMore. unfold fetchProjects.
    apply set_has_true in Hkey. rewrite Hkey. reflexivity.
  - intros e. apply listing_calls_step, Hkey.
  - exact load_more_twice.
Qed.

Lemma listing_request_deduplicated_witness :
  let w0 := {| ui := setTotalPages 3 (setLoading false initial);
               inflight := []; calls := [] |} in
  (FetchPending 1 "all" ∈ inflight (run mounted [])) /\
  fetchProjects 1 "all" true (ui mounted) = (ui mounted, None) /\
  listing_calls 1 "all" (step mounted (FilterChange "all")) = listing_calls 1 "all" mounted /\
  calls (run w0 [LoadMore; LoadMore]) = [GetProjects (listing_params 2 "all")].
Proof.
  intros w0.
  assert (FetchPending 1 "all" ∈ inflight (run mounted [])) as Hin
    by apply list_elem_of_here.
  destruct (listing_request_deduplicated [] 1 "all" Hin) as (Hfetch & Hstep & Htwice).
  split; [exact Hin|]. split; [exact (Hfetch true)|].
  split; [exact (Hstep (FilterChange "all"))|].
  apply (Htwice w0).
  - simpl. lia.
  - reflexivity.
  - apply not_elem_of_empty.
Defined.

End ClientFacts.

(** ** Further properties of tag normalization and tag colours *)

Module TagsMore.
Import Js Tags TagsFacts.

Lemma slice_length {A} (m : Z) (l : list A) :
  0 <= m -> Z.of_nat (length (slice 0 m l)) <= m.
Proof.
  intros Hm. rewrite <- (Z2Nat.id m) at 1 by lia.
  rewrite slice_prefix, length_take. lia.
Qed.

Lemma slice_untruncated {A} (m : Z) (l : list A) :
  Z.of_nat (length (slice 0 m l)) < m -> slice 0 m l = l.
Proof.
  intros H. assert (0 <= m) as Hm by lia.
  rewrite <- (Z2Nat.id m) in H |- * by lia.
  rewrite slice_prefix in *. rewrite length_take in H.
  apply take_ge. lia.
Qed.

Lemma slice_negative {A} (m : Z) (l : list A) :
  m < 0 -> slice 0 m l = take (length l - Z.to_nat (- m)) l.
Proof.
  intros Hm. unfold slice, clamp_index.
  destruct (Z.ltb_spec m 0) as [_|H]; [|lia].
  destruct (Z.ltb_spec 0 0) as [H|_]; [lia|].
  rewrite (Z.min_l 0) by lia. rewrite Z.sub_0_r. change (Z.to_nat 0) with 0%nat.
  rewrite drop_0. f_equal. lia.
Qed.

Lemma dedup_first_complete seen l x :
  x ∈ l -> x ∉ seen -> x ∈ dedup_first seen l.
Proof.
  revert seen. induction l as [|y r IH]; intros seen Hx Hs; [inversion Hx|].
  simpl. destruct (decide (y = x)) as [->|Hne].
  - destruct (decide (x ∈ seen)); [contradiction|left].
  - assert (x ∈ r) as Hr.
    { apply elem_of_cons in Hx as [->|Hx]; [congruence|exact Hx]. }
    destruct (decide (y ∈ seen)); [apply IH; assumption|].
    right. apply IH; [exact Hr|].
    intros H. apply elem_of_union in H as [H|H]; [|exact (Hs H)].
    apply elem_of_singleton in H. congruence.
Qed.

Lemma fragments_elem tags x :
  x ∈ fragments tags <->
  exists tag t, tag ∈ tags /\ t ∈ split hash tag /\ x = trim t /\ nonempty x = true.
Proof.
  unfold fragments. rewrite list_elem_of_In, filter_In, in_map_iff. split.
  - intros [(t & <- & Ht) Hne]. apply filter_In in Ht as [Ht _].
    apply in_flat_map in Ht as (tag & Htag & Ht).
    exists tag, t. rewrite !list_elem_of_In. auto.
  - intros (tag & t & Htag & Ht & -> & Hne). split; [|exact Hne].
    exists t. split; [reflexivity|]. apply filter_In. split; [|exact Hne].
    apply in_flat_map. exists tag. rewrite <- !list_elem_of_In. auto.
Qed.

(** X1. Every tag that [processTags] returns is non-empty, has no white
    space at either end and contains no '#', and no tag is returned
    twice. *)
Theorem processTags_wellformed (tags : list string) (maxTags : Z) :
  Forall normal (processTags tags maxTags) /\ NoDup (processTags tags maxTags).
Proof. split; [apply processTags_normal|apply processTags_NoDup]. Qed.

(** X2. For a non-negative maximum, [processTags] returns at most that
    many tags, and with a smaller non-negative maximum it returns the
    first tags of the longer result. *)
Theorem processTags_truncates (tags : list string) (m m' : Z) :
  0 <= m <= m' ->
  Z.of_nat (length (processTags tags m)) <= m /\
  processTags tags m = take (Z.to_nat m) (processTags tags m').
Proof.
  intros [H0 Hle]. rewrite !processTags_unfold. split.
  - apply slice_length, H0.
  - rewrite <- (Z2Nat.id m) at 1 by lia. rewrite <- (Z2Nat.id m') by lia.
    rewrite !slice_prefix, take_take. f_equal. lia.
Qed.

Lemma processTags_truncates_witness :
  0 <= 1 <= 2 /\
  processTags ["#a#b#c"] 1 = take (Z.to_nat 1) (processTags ["#a#b#c"] 2).
Proof.
  assert (0 <= 1 <= 2) as H by lia.
  split; [exact H|]. exact (proj2 (processTags_truncates ["#a#b#c"] 1 2 H)).
Defined.

(** X3. Every returned tag is the trimmed form of a '#'-separated fragment
    of some input entry; and when the result is shorter than the maximum,
    nothing was cut: the trimmed form of every fragment that is not blank
    is among the returned tags. *)
Theorem processTags_sound_complete (tags : list string) (maxTags : Z) :
  (forall x, x ∈ processTags tags maxTags ->
     exists tag t, tag ∈ tags /\ t ∈ split hash tag /\ x = trim t) /\
  (Z.of_nat (length (processTags tags maxTags)) < maxTags ->
   forall tag t, tag ∈ tags -> t ∈ split hash tag -> nonempty (trim t) = true ->
     trim t ∈ processTags tags maxTags).
Proof.
  rewrite processTags_unfold. split.
  - intros x Hx.
    pose proof (elem_of_sublist _ _ _ Hx (slice_sublist 0 maxTags _)) as Hd.
    apply dedup_first_elem in Hd as [Hd _].
    apply fragments_elem in Hd as (tag & t & H1 & H2 & H3 & _).
    exists tag, t. auto.
  - intros Hlen tag t Htag Ht Hne. rewrite (slice_untruncated _ _ Hlen).
    apply dedup_first_complete; [|apply not_elem_of_empty].
    apply fragments_elem. exists tag, t. auto.
Qed.

Lemma processTags_sound_complete_witness :
  Z.of_nat (length (processTags ["x# y "; "#x"] 8)) < 8 /\
  trim " y " ∈ processTags ["x# y "; "#x"] 8.
Proof.
  assert (Z.of_nat (length (processTags ["x# y "; "#x"] 8)) < 8) as H
    by (vm_compute; reflexivity).
  split; [exact H|].
  apply (proj2 (processTags_sound_complete ["x# y "; "#x"] 8) H "x# y " " y ").
  - apply list_elem_of_here.
  - vm_compute. apply list_elem_of_further, list_elem_of_here.
  - reflexivity.
Defined.

(** X4. With a negative maximum [slice] counts from the end: [processTags]
    returns the untruncated result without its last [-maxTags] tags, and
    so returns nothing exactly when the untruncated result has at most
    [-maxTags] tags. *)
Theorem processTags_negative_maximum (tags : list string) (maxTags limit : Z) :
  maxTags < 0 ->
  Z.of_nat (length (processTags tags limit)) < limit ->
  processTags tags maxTags =
    take (length (processTags tags limit) - Z.to_nat (- maxTags))
         (processTags tags limit) /\
  (processTags tags maxTags = [] <->
   Z.of_nat (length (processTags tags limit)) <= - maxTags).
Proof.
  intros Hneg Hlimit.
  assert (processTags tags maxTags =
          take (length (processTags tags limit) - Z.to_nat (- maxTags))
               (processTags tags limit)) as E.
  { rewrite !processTags_unfold in *.
    rewrite (slice_untruncated _ _ Hlimit). apply slice_negative, Hneg. }
  split; [exact E|]. rewrite E. split.
  - intros H. apply (f_equal length) in H. rewrite length_take in H. simpl in H. lia.
  - intros H.
    replace (length (processTags tags limit) - Z.to_nat (- maxTags))%nat with 0%nat
      by lia.
    reflexivity.
Qed.

Lemma processTags_negative_maximum_witness :
  -1 < 0 /\ Z.of_nat (length (processTags ["#a#b#c"] 8)) < 8 /\
  processTags ["#a#b#c"] (-1) = ["a"; "b"] /\
  processTags ["#a"] (-1) = [].
Proof.
  assert (-1 < 0) as H1 by lia.
  assert (Z.of_nat (length (processTags ["#a#b#c"] 8)) < 8) as H2
    by (vm_compute; reflexivity).
  assert (Z.of_nat (length (processTags ["#a"] 8)) < 8) as H3
    by (vm_compute; reflexivity).
  split; [exact H1|]. split; [exact H2|]. split.
  - rewrite (proj1 (processTags_negative_maximum ["#a#b#c"] (-1) 8 H1 H2)).
    vm_compute. reflexivity.
  - apply (proj2 (processTags_negative_maximum ["#a"] (-1) 8 H1 H3)).
    vm_compute. intros H. discriminate H.
Defined.

End TagsMore.

Module PresentationFacts.
Import Presentation.

Lemma getTagColor_below i :
  0 <= i < 8 -> getTagColor i = colors !! Z.to_nat i.
Proof.
  intros H. unfold getTagColor, at_index.
  change (Z.of_nat (length colors)) with 8.
  rewrite Z.rem_small by lia.
  destruct (Z.ltb_spec i 0); [lia|reflexivity].
Qed.

(** X5. [getTagColor] gives every non-negative index a colour of the
    palette, the same one every eight indices, and different ones to
    different indices below eight; a negative index that is not a
    multiple of eight gets no colour. *)
Theorem getTagColor_cycles (index : Z) :
  (0 <= index ->
     (exists c, getTagColor index = Some c /\ c ∈ colors) /\
     getTagColor (index + 8) = getTagColor index) /\
  (forall j, 0 <= index < j -> j < 8 -> getTagColor index <> getTagColor j) /\
  (index < 0 -> Z.rem index 8 <> 0 -> getTagColor index = None).
Proof.
  split; [|split].
  - intros H0.
    assert (getTagColor index = colors !! Z.to_nat (index mod 8)) as E.
    { unfold getTagColor, at_index. change (Z.of_nat (length colors)) with 8.
      rewrite Z.rem_mod_nonneg by lia.
      pose proof (Z.mod_pos_bound index 8 ltac:(lia)).
      destruct (Z.ltb_spec (index mod 8) 0); [lia|reflexivity]. }
    split.
    + rewrite E. pose proof (Z.mod_pos_bound index 8 ltac:(lia)) as Hb.
      destruct (colors !! Z.to_nat (index mod 8)) as [c|] eqn:Hc.
      * exists c. split; [reflexivity|]. apply list_elem_of_lookup. eauto.
      * apply lookup_ge_None in Hc. simpl in Hc. lia.
    + rewrite E. unfold getTagColor, at_index.
      change (Z.of_nat (length colors)) with 8.
      rewrite Z.rem_mod_nonneg by lia.
      replace ((index + 8) mod 8) with (index mod 8)
        by (rewrite <- (Z.mul_1_l 8) at 2; rewrite Z.mod_add by lia; reflexivity).
      pose proof (Z.mod_pos_bound index 8 ltac:(lia)).
      destruct (Z.ltb_spec (index mod 8) 0); [lia|reflexivity].
  - intros j Hij Hj. rewrite !getTagColor_below by lia.
    assert (exists a b, Z.to_nat index = a /\ Z.to_nat j = b /\ (a < b < 8)%nat)
      as (a & b & -> & -> & Hab) by (eexists _, _; repeat split; lia).
    destruct Hab as [Hab Hb].
    do 8 (destruct b as [|b]; [do 8 (destruct a as [|a]; [try lia; discriminate|]); lia|]).
    lia.
  - intros Hneg Hrem. unfold getTagColor, at_index.
    change (Z.of_nat (length colors)) with 8.
    pose proof (Z.rem_bound_pos_neg index 8 ltac:(lia) ltac:(lia)) as Hb.
    destruct (Z.ltb_spec (Z.rem index 8) 0); [reflexivity|lia].
Qed.

Lemma getTagColor_cycles_witness :
  0 <= 9 /\ getTagColor (9 + 8) = getTagColor 9 /\
  getTagColor 1 <> getTagColor 7 /\ getTagColor (-3) = None.
Proof.
  assert (0 <= 9) as H9 by lia.
  split; [exact H9|].
  split; [exact (proj2 (proj1 (getTagColor_cycles 9) H9))|].
  split.
  - apply (proj1 (proj2 (getTagColor_cycles 1)) 7); lia.
  - apply (proj2 (proj2 (getTagColor_cycles (-3)))); [lia|].
    vm_compute. discriminate.
Defined.

(** X6. In the detail view, which shows [processTags(tags, 8)], every
    shown tag gets a colour and no two shown tags get the same one. *)
Theorem tag_colors_distinct (tags : list string) :
  Forall is_Some (tag_colors tags) /\ NoDup (tag_colors tags) /\
  length (tag_colors tags) = length (Tags.processTags tags 8).
Proof.
  unfold tag_colors.
  assert (Z.of_nat (length (Tags.processTags tags 8)) <= 8) as Hlen.
  { rewrite TagsFacts.processTags_unfold. apply TagsMore.slice_length. lia. }
  set (l := Tags.processTags tags 8) in *. clearbody l.
  rewrite (imap_seq_0 l (fun index => getTagColor (Z.of_nat index))).
  assert (seq 0 (length l) `sublist_of` seq 0 8) as Hsub.
  { replace (seq 0 (length l)) with (take (length l) (seq 0 8)).
    - apply sublist_take.
    - rewrite take_seq. f_equal. lia. }
  apply (fmap_sublist (fun index => getTagColor (Z.of_nat index))) in Hsub.
  split; [|split].
  - eapply Forall_forall. intros c Hc.
    pose proof (elem_of_sublist _ _ _ Hc Hsub) as H8. vm_compute in H8.
    repeat (apply elem_of_cons in H8 as [->|H8]; [eexists; reflexivity|]).
    inversion H8.
  - eapply sublist_NoDup; [|exact Hsub]. vm_compute.
    repeat (constructor;
      [intros H; repeat (apply elem_of_cons in H as [H|H]; [discriminate H|]);
       inversion H|]).
    constructor.
  - rewrite length_fmap, length_seq. reflexivity.
Qed.

End PresentationFacts.

(** ** Further properties of the mutation and creation endpoints *)

Module ServerMore.
Import Model Server Projects ServerFacts.

Lemma findByIdAndUpdate_length id update db :
  length (snd (findByIdAndUpdate id update db)) = length db.
Proof.
  pose proof (findByIdAndUpdate_store id update db) as H.
  symmetry. exact (Forall2_length _ _ _ H).
Qed.

Lemma findByIdAndUpdate_missing id update db :
  findById id db = None -> findByIdAndUpdate id update db = (None, db).
Proof.
  unfold findById. induction db as [|d rest IH]; simpl; [reflexivity|].
  destruct (String.eqb (_id d) id); [discriminate|].
  intros H. rewrite (IH H). reflexivity.
Qed.

Lemma findById_other id id' update db :
  id' <> id -> (forall d, _id (update d) = _id d) ->
  findById id' (snd (findByIdAndUpdate id update db)) = findById id' db.
Proof.
  intros Hne Hid. unfold findById. induction db as [|d rest IH]; simpl; [reflexivity|].
  destruct (String.eqb_spec (_id d) id) as [E|E]; simpl.
  - rewrite Hid. destruct (String.eqb_spec (_id d) id'); [congruence|reflexivity].
  - destruct (findByIdAndUpdate id update rest) as [r rest']. simpl in *.
    rewrite IH. reflexivity.
Qed.

Lemma findByIdAndUpdate_twice id f g db :
  (forall d, _id (f d) = _id d) ->
  snd (findByIdAndUpdate id g (snd (findByIdAndUpdate id f db)))
  = snd (findByIdAndUpdate id (fun d => g (f d)) db).
Proof.
  intros Hid. induction db as [|d rest IH]; simpl; [reflexivity|].
  destruct (String.eqb (_id d) id) eqn:E; simpl.
  - rewrite Hid, E. reflexivity.
  - destruct (findByIdAndUpdate id f rest) as [r rest'] eqn:E1. simpl in *.
    rewrite E.
    destruct (findByIdAndUpdate id g rest') as [r2 rest2]. simpl in *.
    destruct (findByIdAndUpdate id (fun d => g (f d)) rest) as [r3 rest3].
    simpl in *. congruence.
Qed.

Lemma findByIdAndUpdate_identity id f db :
  (forall d, f d = d) -> snd (findByIdAndUpdate id f db) = db.
Proof.
  intros Hf. induction db as [|d rest IH]; simpl; [reflexivity|].
  destruct (String.eqb (_id d) id); simpl; [rewrite Hf; reflexivity|].
  destruct (findByIdAndUpdate id f rest) as [r rest']. simpl in *. congruence.
Qed.

Lemma inc_likes_undo p : inc_likes (-1) (inc_likes 1 p) = p.
Proof.
  destruct p. unfold inc_likes, with_likes. simpl. f_equal. lia.
Qed.

(** X7. The view endpoint, on an existing project: it answers 200 with
    the views plus one and "View counted", the stored document is the old
    one with that count, no other identifier's document changes and the
    collection keeps its size. *)
Theorem view_POST_counts (id : string) (db : Store) (p : Project) :
  findById id db = Some p ->
  exists db',
    view_POST id db =
      (Ok200 {| vp_views := views p + 1; vp_message := "View counted" |}, db') /\
    findById id db' = Some (with_views (views p + 1) p) /\
    (forall id', id' <> id -> findById id' db' = findById id' db) /\
    length db' = length db.
Proof.
  intros Hfound.
  destruct (findByIdAndUpdate_found id (inc_views 1) db p Hfound) as [db' Hupd].
  exists db'. unfold view_POST. rewrite Hfound, Hupd.
  replace db' with (snd (findByIdAndUpdate id (inc_views 1) db))
    by (rewrite Hupd; reflexivity).
  split; [reflexivity|]. split; [|split].
  - exact (findById_updated id (inc_views 1) db p (fun _ => eq_refl) Hfound).
  - intros id' Hne. apply findById_other; [exact Hne|reflexivity].
  - apply findByIdAndUpdate_length.
Qed.

Lemma view_POST_counts_witness :
  exists db',
    view_POST "b" [sample "a" 1 2; sample "b" 3 4] =
      (Ok200 {| vp_views := 4 + 1; vp_message := "View counted" |}, db') /\
    findById "a" db' = Some (sample "a" 1 2).
Proof.
  destruct (view_POST_counts "b" [sample "a" 1 2; sample "b" 3 4] (sample "b" 3 4)
              eq_refl) as (db' & E & _ & Hother & _).
  exists db'. split; [exact E|].
  rewrite (Hother "a") by discriminate. reflexivity.
Defined.

(** X8. The error answers of the two mutation endpoints. A like request
    whose body does not parse, or parses to [null], is answered 500 even
    for an existing project; whenever either endpoint answers with an
    error, the collection is left as it was; and an existing project is
    answered with an error only in those two cases of the like body. *)
Theorem mutation_errors (id : string) (body : option Json) (db : Store) :
  like_POST id None db = (Err 500 "Failed to update likes", db) /\
  like_POST id (Some JNull) db = (Err 500 "Failed to update likes", db) /\
  (forall code error,
     fst (view_POST id db) = Err code error ->
     snd (view_POST id db) = db /\ findById id db = None) /\
  (forall code error,
     fst (like_POST id body db) = Err code error ->
     snd (like_POST id body db) = db /\
     (findById id db = None \/ body = None \/ body = Some JNull)).
Proof.
  split; [reflexivity|split; [reflexivity|split]].
  - intros code error. unfold view_POST.
    destruct (findById id db) as [p|] eqn:Hf; [|split; reflexivity].
    destruct (findByIdAndUpdate_found id (inc_views 1) db p Hf) as [db' ->].
    discriminate.
  - intros code error. unfold like_POST.
    destruct body as [parsed|]; [|split; [reflexivity|right; left; reflexivity]].
    destruct (destructure_liked parsed) as [liked|] eqn:Ed.
    2:{ split; [reflexivity|]. right. right.
        destruct parsed; try discriminate Ed. reflexivity. }
    destruct (findById id db) as [p|] eqn:Hf; [|split; [reflexivity|left; reflexivity]].
    destruct (findByIdAndUpdate_found id
                (inc_likes (if truthy liked then 1 else -1)) db p Hf) as [db' ->].
    discriminate.
Qed.

Lemma mutation_errors_witness :
  fst (like_POST "a" (Some JNull) [sample "a" 1 2]) = Err 500 "Failed to update likes" /\
  snd (like_POST "a" (Some JNull) [sample "a" 1 2]) = [sample "a" 1 2].
Proof.
  assert (fst (like_POST "a" (Some JNull) [sample "a" 1 2])
          = Err 500 "Failed to update likes") as H by reflexivity.
  split; [exact H|].
  exact (proj1 (proj2 (proj2 (proj2 (mutation_errors "a" (Some JNull) [sample "a" 1 2])))
                 500 "Failed to update likes" H)).
Defined.

(** X9. A like followed by an unlike of an existing project: the first
    answers with the likes plus one and "Project liked", the second with
    the original likes and "Project unliked", and the collection is again
    the original one. *)
Theorem like_then_unlike (id : string) (yes no : Json) (liked unliked : option Json)
    (db : Store) (p : Project) :
  findById id db = Some p ->
  destructure_liked yes = Some liked -> truthy liked = true ->
  destructure_liked no = Some unliked -> truthy unliked = false ->
  fst (like_POST id (Some yes) db) =
    Ok200 {| lp_likes := likes p + 1; lp_message := "Project liked" |} /\
  fst (like_POST id (Some no) (snd (like_POST id (Some yes) db))) =
    Ok200 {| lp_likes := likes p; lp_message := "Project unliked" |} /\
  snd (like_POST id (Some no) (snd (like_POST id (Some yes) db))) = db.
Proof.
  intros Hfound Hyes Hliked Hno Hunliked.
  destruct (findByIdAndUpdate_found id (inc_likes 1) db p Hfound) as [db1 Hupd1].
  assert (like_POST id (Some yes) db =
          (Ok200 {| lp_likes := likes p + 1; lp_message := "Project liked" |}, db1)) as E1.
  { unfold like_POST. rewrite Hyes, Hfound, Hliked, Hupd1. reflexivity. }
  assert (findById id db1 = Some (inc_likes 1 p)) as Hfound1.
  { replace db1 with (snd (findByIdAndUpdate id (inc_likes 1) db))
      by (rewrite Hupd1; reflexivity).
    exact (findById_updated id (inc_likes 1) db p (fun _ => eq_refl) Hfound). }
  destruct (findByIdAndUpdate_found id (inc_likes (-1)) db1 _ Hfound1) as [db2 Hupd2].
  assert (like_POST id (Some no) db1 =
          (Ok200 {| lp_likes := likes p; lp_message := "Project unliked" |}, db2)) as E2.
  { unfold like_POST. rewrite Hno, Hfound1, Hunliked, Hupd2.
    rewrite inc_likes_undo. reflexivity. }
  rewrite E1. cbn [fst snd]. rewrite E2. cbn [fst snd].
  split; [reflexivity|]. split; [reflexivity|].
  replace db2 with (snd (findByIdAndUpdate id (inc_likes (-1)) db1))
    by (rewrite Hupd2; reflexivity).
  replace db1 with (snd (findByIdAndUpdate id (inc_likes 1) db))
    by (rewrite Hupd1; reflexivity).
  rewrite findByIdAndUpdate_twice by reflexivity.
  apply findByIdAndUpdate_identity, inc_likes_undo.
Qed.

Lemma like_then_unlike_witness :
  let db := [sample "a" 1 2; sample "b" 0 4] in
  snd (like_POST "b" (Some (JObj []))
         (snd (like_POST "b" (Some (JObj [("liked", JStr "yes")])) db))) = db.
Proof.
  intros db.
  exact (proj2 (proj2 (like_then_unlike "b" (JObj [("liked", JStr "yes")]) (JObj [])
                         (Some (JStr "yes")) None db (sample "b" 0 4)
                         eq_refl eq_refl eq_refl eq_refl eq_refl))).
Defined.

(** *** Accounting over sequences of requests *)

Lemma same_but_counters_id p p' : same_but_counters p p' -> _id p' = _id p.
Proof. unfold same_but_counters. intros <-. reflexivity. Qed.

Lemma same_but_counters_refl p : same_but_counters p p.
Proof. destruct p. reflexivity. Qed.

Lemma same_but_counters_trans p p1 p2 :
  same_but_counters p p1 -> same_but_counters p1 p2 -> same_but_counters p p2.
Proof.
  unfold same_but_counters. destruct p, p1, p2. simpl.
  unfold with_likes, with_views. simpl. intros [= -> -> -> -> -> -> -> -> -> -> -> ->].
  intros [= -> -> -> -> -> -> -> -> -> -> -> ->]. reflexivity.
Qed.

Lemma same_but_counters_likes d p : same_but_counters p (inc_likes d p).
Proof. destruct p. reflexivity. Qed.

Lemma same_but_counters_views d p : same_but_counters p (inc_views d p).
Proof. destruct p. reflexivity. Qed.

(** With unique identifiers, an update reaches exactly the document with
    the identifier. *)
Lemma findByIdAndUpdate_exact id update db :
  NoDup (ids db) ->
  Forall2 (fun p p' => p' = if String.eqb (_id p) id then update p else p)
          db (snd (findByIdAndUpdate id update db)).
Proof.
  induction db as [|d rest IH]; simpl; intros Hnd; [constructor|].
  apply NoDup_cons in Hnd as [Hd Hnd].
  destruct (String.eqb_spec (_id d) id) as [E|E]; simpl.
  - constructor; [rewrite (proj2 (String.eqb_eq _ _) E); reflexivity|].
    apply Forall_Forall2_diag, Forall_forall. intros p Hp.
    destruct (String.eqb_spec (_id p) id) as [E'|_]; [|reflexivity].
    exfalso. apply Hd. rewrite E, <- E'. unfold ids.
    apply list_elem_of_In, in_map, list_elem_of_In, Hp.
  - specialize (IH Hnd).
    destruct (findByIdAndUpdate id update rest) as [r rest']. simpl in *.
    constructor; [|exact IH].
    destruct (String.eqb_spec (_id d) id); [contradiction|reflexivity].
Qed.

Lemma findById_None_ids id db p :
  findById id db = None -> p ∈ db -> String.eqb id (_id p) = false.
Proof.
  unfold findById. intros Hnone Hp.
  apply list_elem_of_In in Hp. pose proof (find_none _ _ Hnone _ Hp) as H.
  simpl in H. rewrite String.eqb_sym. exact H.
Qed.

Lemma serve_accounts db r :
  NoDup (ids db) ->
  Forall2 (fun p p' =>
             same_but_counters p p' /\
             views p' = views p + (if is_view_of (_id p) r then 1 else 0) /\
             likes p' = likes p + (if is_like_of (_id p) r then 1 else 0)
                                - (if is_unlike_of (_id p) r then 1 else 0))
          db (serve db r).
Proof.
  intros Hnd.
  destruct r as [id|id body]; [simpl|].
  - unfold view_POST. destruct (findById id db) as [found|] eqn:Hf.
    + pose proof (findByIdAndUpdate_exact id (inc_views 1) db Hnd) as H.
      destruct (findByIdAndUpdate id (inc_views 1) db) as [[project|] db']; simpl in *.
      all: eapply Forall2_impl; [exact H|].
      all: intros p p' ->; rewrite (String.eqb_sym id).
      all: destruct (String.eqb (_id p) id); simpl;
        [split; [apply same_but_counters_views|lia]
        |split; [apply same_but_counters_refl|lia]].
    + simpl. apply Forall_Forall2_diag, Forall_forall. intros p Hp.
      rewrite (findById_None_ids id db p Hf Hp).
      split; [apply same_but_counters_refl|lia].
  - assert ((forall p, p ∈ db ->
               is_like_of (_id p) (LikeRequest id body) = false /\
               is_unlike_of (_id p) (LikeRequest id body) = false) ->
            Forall2 (fun p p' =>
               same_but_counters p p' /\
               views p' = views p
                 + (if is_view_of (_id p) (LikeRequest id body) then 1 else 0) /\
               likes p' = likes p
                 + (if is_like_of (_id p) (LikeRequest id body) then 1 else 0)
                 - (if is_unlike_of (_id p) (LikeRequest id body) then 1 else 0))
              db db) as Hsame.
    { intros Hb. apply Forall_Forall2_diag, Forall_forall. intros p Hp.
      destruct (Hb p Hp) as [-> ->]. simpl.
      split; [apply same_but_counters_refl|lia]. }
    cbn [serve]. unfold like_POST.
    destruct body as [parsed|]; [|apply Hsame; intros; split; reflexivity].
    destruct (destructure_liked parsed) as [liked|] eqn:Ed.
    2:{ apply Hsame. intros p _. simpl. rewrite Ed, !andb_false_r. split; reflexivity. }
    destruct (findById id db) as [found|] eqn:Hf.
    2:{ apply Hsame. intros p Hp. simpl.
        rewrite (findById_None_ids id db p Hf Hp). split; reflexivity. }
    clear Hsame.
    pose proof (findByIdAndUpdate_exact id
                  (inc_likes (if truthy liked then 1 else -1)) db Hnd) as H.
    destruct (findByIdAndUpdate id _ db) as [[project|] db']; cbn [snd] in *.
    all: eapply Forall2_impl; [exact H|].
    all: intros p p' ->; cbn [is_view_of is_like_of is_unlike_of].
    all: rewrite Ed, (String.eqb_sym id).
    all: destruct (String.eqb (_id p) id); simpl;
      [split; [apply same_but_counters_likes|]
      |split; [apply same_but_counters_refl|lia]].
    all: destruct (truthy liked); simpl; lia.
Qed.

Lemma count_of_cons f r rs :
  count_of f (r :: rs) = (if f r then 1 else 0) + count_of f rs.
Proof. unfold count_of. simpl. destruct (f r); simpl; lia. Qed.

Lemma Forall2_same_ids (R : Project -> Project -> Prop) db db' :
  (forall p p', R p p' -> _id p' = _id p) -> Forall2 R db db' -> ids db' = ids db.
Proof.
  intros HR H. induction H as [|p p' l l' Hp _ IH]; simpl; [reflexivity|].
  rewrite (HR _ _ Hp), IH. reflexivity.
Qed.

(** X10. Exact accounting. In a collection with unique identifiers, after
    any sequence of requests to the two mutation endpoints every document
    is the original one but for its counters, its views have grown by the
    number of view requests for it, and its likes by the number of like
    requests minus the number of unlike requests for it (requests whose
    body the endpoint rejects count for nothing). *)
Theorem serve_all_accounts (rs : list MutationRequest) (db : Store) :
  NoDup (ids db) ->
  Forall2 (fun p p' =>
             same_but_counters p p' /\
             views p' = views p + count_of (is_view_of (_id p)) rs /\
             likes p' = likes p + count_of (is_like_of (_id p)) rs
                                - count_of (is_unlike_of (_id p)) rs)
          db (serve_all db rs).
Proof.
  revert db. induction rs as [|r rs IH]; intros db Hnd; simpl.
  - apply Forall_Forall2_diag, Forall_forall. intros p _.
    unfold count_of. simpl. split; [apply same_but_counters_refl|lia].
  - pose proof (serve_accounts db r Hnd) as H1.
    assert (NoDup (ids (serve db r))) as Hnd1.
    { rewrite (Forall2_same_ids _ _ _ (fun p p' H => same_but_counters_id p p' (proj1 H)) H1).
      exact Hnd. }
    specialize (IH (serve db r) Hnd1).
    eapply Forall2_trans; [|exact H1|exact IH].
    intros p p1 p2 (Hs1 & Hv1 & Hl1) (Hs2 & Hv2 & Hl2).
    rewrite (same_but_counters_id _ _ Hs1) in Hv2, Hl2.
    rewrite !count_of_cons.
    split; [exact (same_but_counters_trans _ _ _ Hs1 Hs2)|]. split; lia.
Qed.

Lemma serve_all_accounts_witness :
  let db := [sample "a" 1 2; sample "b" 0 4] in
  let rs := [ViewRequest "b"; LikeRequest "b" (Some (JObj [("liked", JBool true)]));
             ViewRequest "b"; LikeRequest "a" (Some (JObj [])); ViewRequest "zz";
             LikeRequest "b" None] in
  NoDup (ids db) /\
  serve_all db rs = [sample "a" 0 2; sample "b" 1 6] /\
  Forall2 (fun p p' =>
             same_but_counters p p' /\
             views p' = views p + count_of (is_view_of (_id p)) rs /\
             likes p' = likes p + count_of (is_like_of (_id p)) rs
                                - count_of (is_unlike_of (_id p)) rs)
          db (serve_all db rs).
Proof.
  intros db rs.
  assert (NoDup (ids db)) as Hnd.
  { vm_compute. repeat (constructor;
      [intros H; repeat (apply elem_of_cons in H as [H|H]; [discriminate H|]);
       inversion H|]). constructor. }
  split; [exact Hnd|]. split; [vm_compute; reflexivity|].
  exact (serve_all_accounts rs db Hnd).
Defined.

(** X11. Whatever the requests, and whatever the identifiers, the two
    mutation endpoints neither add nor remove nor reorder documents, and
    change nothing of a document but its two counters. *)
Theorem serve_all_keeps_documents (rs : list MutationRequest) (db : Store) :
  Forall2 same_but_counters db (serve_all db rs) /\
  length (serve_all db rs) = length db /\
  ids (serve_all db rs) = ids db.
Proof.
  assert (Forall2 same_but_counters db (serve_all db rs)) as H.
  { revert db. induction rs as [|r rs IH]; intros db; simpl.
    - apply Forall_Forall2_diag, Forall_forall. intros; apply same_but_counters_refl.
    - eapply Forall2_trans; [exact same_but_counters_trans| |exact (IH (serve db r))].
      assert (forall id f, (forall d, same_but_counters d (f d)) ->
                Forall2 same_but_counters db (snd (findByIdAndUpdate id f db))) as Hupd.
      { intros id f Hf. eapply Forall2_impl; [apply findByIdAndUpdate_store|].
        intros p p' [->|[_ ->]]; [apply same_but_counters_refl|apply Hf]. }
      assert (Forall2 same_but_counters db db) as Hsame.
      { apply Forall_Forall2_diag, Forall_forall. intros; apply same_but_counters_refl. }
      destruct r as [id|id body]; simpl.
      + unfold view_POST. destruct (findById id db); [|exact Hsame].
        specialize (Hupd id (inc_views 1) (same_but_counters_views 1)).
        destruct (findByIdAndUpdate id (inc_views 1) db) as [[project|] db']; exact Hupd.
      + unfold like_POST. destruct body as [parsed|]; [|exact Hsame].
        destruct (destructure_liked parsed) as [liked|]; [|exact Hsame].
        destruct (findById id db); [|exact Hsame].
        specialize (Hupd id (inc_likes (if truthy liked then 1 else -1))
                      (same_but_counters_likes _)).
        destruct (findByIdAndUpdate id _ db) as [[project|] db']; exact Hupd. }
  split; [exact H|]. split.
  - symmetry. exact (Forall2_length _ _ _ H).
  - exact (Forall2_same_ids _ _ _ same_but_counters_id H).
Qed.

(** *** The creation endpoint *)

Section Creation.
Variable save : Json -> Store -> option Project.

(** X12. The creation endpoint stores a document only when the body
    parses to a value whose [title], [category], [description] and [image]
    members are all truthy and the collaborator accepts it; the collection
    then grows by exactly that document, at its end. Every other request
    is answered 400 or 500 and leaves the collection as it was. *)
Theorem POST_creates_or_keeps (body : option Json) (db : Store) :
  match POST save body db with
  | (Created project, db') =>
      exists parsed title_ category_ description_ image_,
        body = Some parsed /\
        destructure_required parsed =
          Some (title_, category_, description_, image_) /\
        truthy title_ = true /\ truthy category_ = true /\
        truthy description_ = true /\ truthy image_ = true /\
        save parsed db = Some project /\ db' = db ++ [project]
  | (CreateErr code _, db') => db' = db /\ (code = 400 \/ code = 500)
  end.
Proof.
  unfold POST. destruct body as [parsed|]; [|split; [reflexivity|right; reflexivity]].
  destruct (destructure_required parsed) as [[[[t c] d] i]|] eqn:Ed;
    [|split; [reflexivity|right; reflexivity]].
  destruct (truthy t) eqn:Ht, (truthy c) eqn:Hc, (truthy d) eqn:Hd, (truthy i) eqn:Hi;
    simpl; try (split; [reflexivity|left; reflexivity]).
  destruct (save parsed db) as [project|] eqn:Hs;
    [|split; [reflexivity|right; reflexivity]].
  exists parsed, t, c, d, i. repeat split; assumption.
Qed.

(** X13. A body that lacks one of the four required members, or carries a
    falsy value for it (an empty string, 0, false, null), is answered 400
    "Missing required fields" without consulting the collaborator; so is
    every body that is a JSON string, number, boolean or array. *)
Theorem POST_missing_field (fields : list (string * Json)) (name : string) (db : Store) :
  In name ["title"; "category"; "description"; "image"] ->
  truthy (get_field name fields) = false ->
  POST save (Some (JObj fields)) db = (CreateErr 400 "Missing required fields", db) /\
  (forall s, POST save (Some (JStr s)) db = (CreateErr 400 "Missing required fields", db)) /\
  (forall n, POST save (Some (JNum n)) db = (CreateErr 400 "Missing required fields", db)) /\
  (forall b, POST save (Some (JBool b)) db = (CreateErr 400 "Missing required fields", db)) /\
  (forall l, POST save (Some (JArr l)) db = (CreateErr 400 "Missing required fields", db)).
Proof.
  intros Hname Hfalsy. split; [|repeat split].
  unfold POST, destructure_required.
  simpl in Hname.
  destruct Hname as [<-|[<-|[<-|[<-|[]]]]]; rewrite Hfalsy; simpl;
    rewrite ?orb_true_r; reflexivity.
Qed.

End Creation.

Lemma POST_missing_field_witness :
  POST (fun _ _ => None)
       (Some (JObj [("title", JStr ""); ("category", JStr "poster");
                    ("description", JStr "d"); ("image", JStr "/i.png")])) []
  = (CreateErr 400 "Missing required fields", []).
Proof.
  apply (POST_missing_field (fun _ _ => None) _ "title" []).
  - left. reflexivity.
  - reflexivity.
Defined.

End ServerMore.

(** ** Further properties of the listing endpoint *)

Module ListingMore.
Import Model Server Projects ListingFacts.

Lemma pages_cover {A} (l : list A) (L n : nat) :
  flat_map (fun i => take L (drop (i * L) l)) (seq 0 n) = take (n * L) l.
Proof.
  induction n as [|n IH]; [reflexivity|].
  rewrite seq_S, flat_map_app, IH. simpl. rewrite app_nil_r.
  rewrite take_take_drop. f_equal. lia.
Qed.

Lemma obj_set_fresh key v (obj : list (string * Z)) :
  key ∉ map fst obj -> obj_set key v obj = obj ++ [(key, v)].
Proof.
  induction obj as [|[k w] rest IH]; simpl; intros Hk; [reflexivity|].
  destruct (String.eqb_spec k key) as [->|_].
  - exfalso. apply Hk. left.
  - rewrite IH; [reflexivity|]. intros H. apply Hk. right. exact H.
Qed.

Lemma obj_set_keys key v (obj : list (string * Z)) :
  NoDup (map fst obj) ->
  NoDup (map fst (obj_set key v obj)) /\
  (forall k, k ∈ map fst (obj_set key v obj) <-> k = key \/ k ∈ map fst obj).
Proof.
  induction obj as [|[k w] rest IH]; simpl; intros Hnd.
  - split; [apply NoDup_singleton|]. intros k. rewrite list_elem_of_singleton.
    split; [auto|intros [H|H]; [exact H|inversion H]].
  - apply NoDup_cons in Hnd as [Hk Hnd]. destruct (IH Hnd) as [IH1 IH2].
    destruct (String.eqb_spec k key) as [->|Hne]; simpl.
    + split; [apply NoDup_cons; auto|]. intros k'. rewrite elem_of_cons. tauto.
    + split.
      * apply NoDup_cons. split; [|exact IH1]. rewrite IH2. intros [H|H]; auto.
      * intros k'. rewrite !elem_of_cons, IH2. tauto.
Qed.

Lemma build_sort_from_keys index fields orders acc :
  NoDup (map fst acc) -> NoDup (map fst (build_sort_from index fields orders acc)).
Proof.
  revert index acc. induction fields as [|f rest IH]; intros index acc Hnd; simpl.
  - exact Hnd.
  - apply IH. apply obj_set_keys, Hnd.
Qed.

Lemma build_sort_from_fresh index fields orders acc :
  NoDup fields -> (forall f, f ∈ fields -> f ∉ map fst acc) ->
  build_sort_from index fields orders acc
  = acc ++ imap (fun j f => (f, order_at orders (index + j))) fields.
Proof.
  revert index acc. induction fields as [|f rest IH]; intros index acc Hnd Hfresh.
  - simpl. rewrite app_nil_r. reflexivity.
  - apply NoDup_cons in Hnd as [Hf Hnd]. cbn [build_sort_from].
    fold (order_at orders index).
    rewrite obj_set_fresh by (apply Hfresh; left).
    rewrite IH; [|exact Hnd|].
    + rewrite <- app_assoc. simpl. rewrite Nat.add_0_r. do 2 f_equal.
      apply imap_ext. intros j x _. simpl. do 2 f_equal. lia.
    + intros g Hg. rewrite map_app. simpl. intros H.
      apply elem_of_app in H as [H|H].
      * exact (Hfresh g (list_elem_of_further _ _ _ Hg) H).
      * apply list_elem_of_singleton in H. subst g. exact (Hf Hg).
Qed.

(** X14. For sort fields that an object keeps as own keys in insertion
    order (none is [__proto__] or a string of digits): the sort object
    never names a field twice; and when the comma-separated fields are
    distinct, it pairs the i-th field with -1 if the i-th sort order is
    "desc" and with 1 otherwise, also when there are fewer orders than
    fields. *)
Theorem build_sort_zips (sortBy sortOrder : string) :
  forallb plain_key (Js.split ","%char sortBy) = true ->
  NoDup (map fst (build_sort sortBy sortOrder)) /\
  (NoDup (Js.split ","%char sortBy) ->
   build_sort sortBy sortOrder =
   imap (fun i field => (field, order_at (Js.split ","%char sortOrder) i))
        (Js.split ","%char sortBy)).
Proof.
  intros _. unfold build_sort. split.
  - apply build_sort_from_keys. constructor.
  - intros Hnd. rewrite build_sort_from_fresh; [reflexivity|exact Hnd|].
    intros f _ H. inversion H.
Qed.

Lemma build_sort_zips_witness :
  forallb plain_key (Js.split ","%char "likes,title,views") = true /\
  NoDup (Js.split ","%char "likes,title,views") /\
  build_sort "likes,title,views" "desc,asc" =
    [("likes", -1); ("title", 1); ("views", 1)].
Proof.
  assert (forallb plain_key (Js.split ","%char "likes,title,views") = true) as Hplain
    by reflexivity.
  assert (NoDup (Js.split ","%char "likes,title,views")) as Hnd.
  { vm_compute. repeat (constructor;
      [intros H; repeat (apply elem_of_cons in H as [H|H]; [discriminate H|]);
       inversion H|]). constructor. }
  split; [exact Hplain|]. split; [exact Hnd|].
  rewrite (proj2 (build_sort_zips "likes,title,views" "desc,asc" Hplain) Hnd).
  vm_compute. reflexivity.
Defined.

Section Listing.
Variable sortDocs : list (string * Z) -> list Project -> list Project.

Lemma GET_ok (q : Query) (db : Store) :
  0 <= (default 1 (q_page q) - 1) * default 12 (q_limit q) ->
  GET sortDocs q db =
  Ok200 {| ls_projects :=
             limit (default 12 (q_limit q))
               (drop (Z.to_nat ((default 1 (q_page q) - 1) * default 12 (q_limit q)))
                  (sortDocs (query_sort q) (find (query_filter q) db)));
           ls_pagination :=
             {| pg_page := default 1 (q_page q);
                pg_limit := default 12 (q_limit q);
                pg_total := countDocuments (query_filter q) db;
                pg_pages := ceil_quotient (countDocuments (query_filter q) db)
                              (default 12 (q_limit q)) |} |}.
Proof.
  intros H. unfold GET, skip.
  destruct (Z.ltb_spec ((default 1 (q_page q) - 1) * default 12 (q_limit q)) 0);
    [lia|reflexivity].
Qed.

(** From here on the collaborator's sort only reorders the documents. *)
Hypothesis sortDocs_permutes : forall sort docs, sortDocs sort docs ≡ₚ docs.

Lemma sorted_length (q : Query) (db : Store) :
  Z.of_nat (length (sortDocs (query_sort q) (find (query_filter q) db)))
  = countDocuments (query_filter q) db.
Proof. unfold countDocuments. rewrite (sortDocs_permutes _ _). reflexivity. Qed.

Lemma listed_page (q : Query) (db : Store) (p : Z) :
  1 <= default 12 (q_limit q) -> 1 <= p ->
  listed (GET sortDocs (page_query q p) db)
  = take (Z.to_nat (default 12 (q_limit q)))
      (drop (Z.to_nat ((p - 1) * default 12 (q_limit q)))
         (sortDocs (query_sort q) (find (query_filter q) db))).
Proof.
  intros HL Hp. rewrite GET_ok by (simpl; nia).
  simpl. unfold limit.
  destruct (Z.eqb_spec (default 12 (q_limit q)) 0); [lia|].
  rewrite Z.abs_eq by lia. reflexivity.
Qed.

(** X15. Concatenating the pages 1, 2, ..., ceil(total / limit) of a
    listing, for a limit of at least one, gives exactly the matching
    documents in sorted order: the pagination loses no document and lists
    none twice. *)
Theorem GET_pages_concatenate (q : Query) (db : Store) :
  let L := default 12 (q_limit q) in
  let total := countDocuments (query_filter q) db in
  1 <= L ->
  flat_map (fun i => listed (GET sortDocs (page_query q (Z.of_nat i + 1)) db))
           (seq 0 (Z.to_nat ((total + L - 1) / L)))
  = sortDocs (query_sort q) (find (query_filter q) db).
Proof.
  intros L total HL.
  pose proof (sorted_length q db) as Hlen. fold total in Hlen.
  set (sorted := sortDocs (query_sort q) (find (query_filter q) db)) in *.
  assert (forall i : nat,
            listed (GET sortDocs (page_query q (Z.of_nat i + 1)) db)
            = take (Z.to_nat L) (drop (i * Z.to_nat L) sorted)) as Hpage.
  { intros i. rewrite listed_page by (fold L; lia). fold L sorted.
    do 2 f_equal. nia. }
  rewrite (flat_map_ext _ _ Hpage), pages_cover.
  apply take_ge.
  destruct (ceil_quotient_spec total L HL) as (pages & Hp & Hlo & Hhi).
  rewrite ceil_quotient_formula in Hp by exact HL. injection Hp as Hp.
  rewrite Hp. nia.
Qed.

(** X16. For a limit [L] of at least one and a page [p] of at least one
    the listing endpoint answers 200, and the answer holds [L] projects
    while [p * L] does not exceed the total, the remainder on the last
    page, and none (still with a 200 and the same total) beyond it. *)
Theorem GET_page_size (q : Query) (db : Store) (p : Z) :
  let L := default 12 (q_limit q) in
  let total := countDocuments (query_filter q) db in
  1 <= L -> 1 <= p ->
  exists payload,
    GET sortDocs (page_query q p) db = Ok200 payload /\
    pg_total (ls_pagination payload) = total /\
    Z.of_nat (length (ls_projects payload))
    = Z.max 0 (Z.min L (total - (p - 1) * L)) /\
    (total <= (p - 1) * L -> ls_projects payload = []).
Proof.
  intros L total HL Hp.
  pose proof (sorted_length q db) as Hlen. fold total in Hlen.
  pose proof (listed_page q db p HL Hp) as Hlisted. fold L in Hlisted.
  assert (0 <= (p - 1) * L) as Hoff by nia.
  rewrite GET_ok in Hlisted |- * by (simpl; fold L; exact Hoff).
  eexists. split; [reflexivity|]. split; [reflexivity|].
  cbn [ls_projects]. cbn [listed ls_projects] in Hlisted. rewrite Hlisted.
  set (sorted := sortDocs (query_sort q) (find (query_filter q) db)) in *.
  split.
  - rewrite length_take, length_drop. lia.
  - intros Hbeyond. rewrite drop_ge by lia. apply take_nil.
Qed.

(** X17. Every listed project is a document of the collection whose
    status is the requested one ("published" when none is requested) and,
    when a category other than "all" is requested, whose category is that
    one. *)
Theorem GET_lists_matching (q : Query) (db : Store) (payload : ListPayload) :
  GET sortDocs q db = Ok200 payload ->
  Forall (fun p =>
            p ∈ db /\
            status_name (status p) = or_default (q_status q) "published" /\
            (forall c, q_category q = Some c -> c <> "" -> c <> "all" ->
                       category_name (category p) = c))
         (ls_projects payload).
Proof.
  unfold GET, skip. destruct (_ <? 0); [discriminate|]. intros [= <-]. simpl.
  fold (query_filter q) (query_sort q).
  apply Forall_forall. intros p Hp.
  assert (p ∈ find (query_filter q) db) as Hfound.
  { rewrite <- (sortDocs_permutes (query_sort q)).
    eapply elem_of_sublist; [exact Hp|].
    unfold limit. destruct (_ =? 0); [apply sublist_drop|].
    etransitivity; [apply sublist_take|apply sublist_drop]. }
  unfold find in Hfound. apply list_elem_of_In, filter_In in Hfound as [Hin Hm].
  apply list_elem_of_In in Hin. split; [exact Hin|].
  unfold matches in Hm. apply andb_true_iff in Hm as [Hs Hc].
  apply String.eqb_eq in Hs. split; [exact Hs|].
  intros c Hq Hne Hall. unfold query_filter, build_filter in Hc. simpl in Hc.
  rewrite Hq in Hc.
  assert (Js.is_empty c = false) as He by (destruct c; [contradiction|reflexivity]).
  rewrite He in Hc.
  destruct (String.eqb_spec c "all"); [contradiction|].
  simpl in Hc. apply String.eqb_eq, Hc.
Qed.

End Listing.

Lemma GET_pages_concatenate_witness :
  let q := {| q_page := None; q_limit := Some 2; q_category := Some "poster";
              q_status := None; q_sortBy := None; q_sortOrder := None |} in
  let db := [sample "a" 0 0; sample "b" 0 0; sample "c" 0 0] in
  1 <= 2 /\
  listed (GET (fun _ docs => docs) (page_query q 1) db)
  ++ listed (GET (fun _ docs => docs) (page_query q 2) db) = db.
Proof.
  intros q db. split; [lia|].
  pose proof (GET_pages_concatenate (fun _ docs => docs)
                (fun _ docs => reflexivity docs) q db ltac:(simpl; lia)) as H.
  vm_compute in H. vm_compute. exact H.
Defined.

Lemma GET_page_size_witness :
  let q := {| q_page := None; q_limit := Some 2; q_category := None;
              q_status := None; q_sortBy := None; q_sortOrder := None |} in
  let db := [sample "a" 0 0; sample "b" 0 0; sample "c" 0 0] in
  exists payload,
    GET (fun _ docs => docs) (page_query q 3) db = Ok200 payload /\
    ls_projects payload = [].
Proof.
  intros q db.
  destruct (GET_page_size (fun _ docs => docs) (fun _ docs => reflexivity docs) q db 3)
    as (payload & Hok & _ & _ & Hempty).
  - vm_compute. intros H. discriminate H.
  - vm_compute. intros H. discriminate H.
  - exists payload. split; [exact Hok|]. apply Hempty.
    vm_compute. intros H. discriminate H.
Defined.

Lemma GET_lists_matching_witness :
  let q := {| q_page := None; q_limit := None; q_category := Some "poster";
              q_status := None; q_sortBy := None; q_sortOrder := None |} in
  let db := [sample "a" 0 0] in
  Forall (fun p => status_name (status p) = "published" /\
                   category_name (category p) = "poster") db.
Proof.
  intros q db.
  pose proof (GET_lists_matching (fun _ docs => docs)
                (fun _ docs => reflexivity docs) q db _ eq_refl) as H.
  simpl in H. eapply Forall_impl; [exact H|].
  intros p (_ & Hs & Hc). split; [exact Hs|].
  apply (Hc "poster"); [reflexivity|discriminate|discriminate].
Defined.

End ListingMore.

(** ** Further properties of the client state controller *)

Module ClientMore.
Import Model Api Client Sessions ClientFacts.

(** *** Invariants of the sessions *)

(** X18. In every session reached from the mounted component, the
    pending-request set is exactly the set of keys of the requests in
    flight, no two requests in flight share a key, and the set is empty
    when nothing is in flight. *)
Theorem reachable_pending_is_inflight (es : list Event) :
  let w := run mounted es in
  pendingRequests (ui w) = list_to_set (map requestKey (inflight w)) /\
  NoDup (map requestKey (inflight w)) /\
  (inflight w = [] -> pendingRequests (ui w) = ∅).
Proof.
  intros w. destruct (run_consistent es mounted mounted_consistent) as [Hset Hnd].
  fold w in Hset, Hnd. split; [exact Hset|]. split; [exact Hnd|].
  intros Hnone. rewrite Hset, Hnone. reflexivity.
Qed.

Lemma reachable_pending_is_inflight_witness :
  let es := [Like (sample "p1" 0 0); Settle 0 (FetchOutcome NetworkError);
             Settle 0 (LikeOutcome NetworkError)] in
  inflight (run mounted es) = [] /\ pendingRequests (ui (run mounted es)) = ∅.
Proof.
  intros es.
  assert (inflight (run mounted es) = []) as H by (vm_compute; reflexivity).
  split; [exact H|].
  exact (proj2 (proj2 (reachable_pending_is_inflight es)) H).
Defined.

Lemma issue_ui w r : ui (issue w r) = fst r.
Proof. destruct r as [s [[c k]|]]; reflexivity. Qed.

Lemma fetchProjects_projects page filter_ isLoadMore s :
  projects (fst (fetchProjects page filter_ isLoadMore s)) = projects s.
Proof.
  unfold fetchProjects. destruct (set_has _ _); [reflexivity|].
  destruct isLoadMore; reflexivity.
Qed.

Lemma handleProjectClick_projects project s :
  projects (fst (handleProjectClick project s)) = projects s.
Proof. unfold handleProjectClick. destruct (set_has _ _); reflexivity. Qed.

Lemma handleLike_projects project s :
  projects (fst (handleLike project s)) = projects s.
Proof. unfold handleLike. destruct (set_has _ _); reflexivity. Qed.

Lemma loadMoreProjects_projects s :
  projects (fst (loadMoreProjects s)) = projects s.
Proof.
  unfold loadMoreProjects. destruct (_ && _); [|reflexivity].
  rewrite fetchProjects_projects. reflexivity.
Qed.

Lemma bump_views_ids project prev : ids (bump_views project prev) = ids prev.
Proof.
  unfold bump_views, ids. rewrite map_map. apply map_ext. intros p.
  destruct (_ && _); reflexivity.
Qed.

Lemma reconcile_likes_ids project n prev :
  ids (reconcile_likes project n prev) = ids prev.
Proof.
  unfold reconcile_likes, ids. rewrite map_map. apply map_ext. intros p.
  destruct (String.eqb _ _); reflexivity.
Qed.

Lemma settle_projects_NoDup k o s s' :
  clean_outcome o -> settle k o s = Some s' ->
  NoDup (ids (projects s)) -> NoDup (ids (projects s')).
Proof.
  intros Hclean Hs Hnd.
  destruct k as [page filter_|project|project isLiked], o as [r|r|r];
    simpl in Hs; try discriminate; injection Hs as <-.
  - unfold fetchProjects_settle.
    destruct r as [|[|] [data|]]; try exact Hnd. simpl in Hclean.
    destruct (page =? 1); simpl; [exact Hclean|].
    apply merge_page_NoDup; assumption.
  - destruct r; simpl; [exact Hnd|]. rewrite bump_views_ids. exact Hnd.
  - unfold handleLike_settle. destruct r as [|[|] [result|]]; try exact Hnd.
    simpl. rewrite reconcile_likes_ids. exact Hnd.
Qed.

Lemma step_projects_NoDup w e :
  clean_event e -> NoDup (ids (projects (ui w))) ->
  NoDup (ids (projects (ui (step w e)))).
Proof.
  intros Hclean Hnd. destruct e as [newFilter| |project|project|i o]; unfold step.
  - destruct (String.eqb newFilter (filter (ui w))); rewrite issue_ui.
    + simpl. constructor.
    + unfold filter_effect. rewrite fetchProjects_projects. simpl. constructor.
  - rewrite issue_ui, loadMoreProjects_projects. exact Hnd.
  - rewrite issue_ui, handleProjectClick_projects. exact Hnd.
  - rewrite issue_ui, handleLike_projects. exact Hnd.
  - destruct (inflight w !! i) as [k|]; [|exact Hnd].
    destruct (settle k o (ui w)) as [s'|] eqn:Hs; [|exact Hnd].
    simpl. exact (settle_projects_NoDup k o _ _ Hclean Hs Hnd).
Qed.

(** X19. When no listing response names an identifier twice, the loaded
    projects never hold two projects with the same identifier, in any
    session reached from the mounted component, whatever the order in
    which filter changes, clicks, likes, "load more" triggers and
    responses arrive. *)
Theorem loaded_projects_distinct (es : list Event) :
  Forall clean_event es ->
  NoDup (ids (projects (ui (run mounted es)))).
Proof.
  assert (forall w, Forall clean_event es -> NoDup (ids (projects (ui w))) ->
                    NoDup (ids (projects (ui (run w es))))) as Hrun.
  { induction es as [|e es IH]; intros w Hes Hw; simpl; [exact Hw|].
    apply Forall_cons in Hes as [He Hes]. apply IH; [exact Hes|].
    apply step_projects_NoDup; assumption. }
  intros Hes. apply Hrun; [exact Hes|].
  unfold mounted. rewrite issue_ui. unfold filter_effect.
  rewrite fetchProjects_projects. simpl. constructor.
Qed.

Lemma loaded_projects_distinct_witness :
  let page1 := {| Api.projects := [sample "a" 0 0; sample "b" 0 0];
                  pagination := {| page := 1; limit := 12; total := 3; pages := 2 |} |} in
  let page2 := {| Api.projects := [sample "b" 0 0; sample "c" 0 0];
                  pagination := {| page := 2; limit := 12; total := 3; pages := 2 |} |} in
  let es := [Settle 0 (FetchOutcome (HttpResponse true (Some page1)));
             LoadMore;
             Settle 0 (FetchOutcome (HttpResponse true (Some page2)))] in
  ids (projects (ui (run mounted es))) = ["a"; "b"; "c"] /\
  NoDup (ids (projects (ui (run mounted es)))).
Proof.
  intros page1 page2 es. split; [vm_compute; reflexivity|].
  apply loaded_projects_distinct.
  assert (forall l : list string, l = ["a"; "b"] \/ l = ["b"; "c"] -> NoDup l) as Hnd.
  { intros l [-> | ->];
      repeat (constructor;
        [intros H; repeat (apply elem_of_cons in H as [H|H]; [discriminate H|]);
         inversion H|]); constructor. }
  unfold es. constructor; [simpl; apply Hnd; left; reflexivity|].
  constructor; [exact I|].
  constructor; [simpl; apply Hnd; right; reflexivity|constructor].
Defined.

(** The page counter is at least 1 and so is the page of every listing
    call. *)
Lemma fetchProjects_well_paged page filter_ isLoadMore s :
  1 <= page ->
  match snd (fetchProjects page filter_ isLoadMore s) with
  | Some (c, _) => well_paged c
  | None => True
  end /\
  currentPage (fst (fetchProjects page filter_ isLoadMore s)) = currentPage s.
Proof.
  intros Hpage. unfold fetchProjects. destruct (set_has _ _); simpl; [auto|].
  split; [exists page, filter_; auto|]. destruct isLoadMore; reflexivity.
Qed.

Lemma issue_well_paged w r :
  Forall well_paged (calls w) ->
  match snd r with Some (c, _) => well_paged c | None => True end ->
  Forall well_paged (calls (issue w r)).
Proof.
  intros Hw Hr. destruct r as [s [[c k]|]]; simpl in *; [|exact Hw].
  apply Forall_app. split; [exact Hw|]. constructor; [exact Hr|constructor].
Qed.

Lemma step_well_paged w e :
  1 <= currentPage (ui w) /\ Forall well_paged (calls w) ->
  1 <= currentPage (ui (step w e)) /\ Forall well_paged (calls (step w e)).
Proof.
  intros [Hpage Hcalls].
  destruct e as [newFilter| |project|project|i o]; unfold step.
  - destruct (String.eqb newFilter (filter (ui w))).
    + split; [simpl; lia|exact Hcalls].
    + destruct (fetchProjects_well_paged 1 (filter (handleFilterChange newFilter (ui w)))
                  false (handleFilterChange newFilter (ui w)) ltac:(lia)) as [H1 H2].
      unfold filter_effect. rewrite issue_ui, H2.
      split; [simpl; lia|]. apply issue_well_paged; assumption.
  - unfold loadMoreProjects. destruct (_ && _).
    + destruct (fetchProjects_well_paged (currentPage (ui w) + 1) (filter (ui w)) true
                  (setCurrentPage (currentPage (ui w) + 1) (ui w)) ltac:(lia)) as [H1 H2].
      rewrite issue_ui, H2. split; [simpl; lia|].
      apply issue_well_paged; assumption.
    + split; assumption.
  - unfold handleProjectClick. destruct (set_has _ _); simpl.
    + split; assumption.
    + split; [exact Hpage|]. apply Forall_app. split; [exact Hcalls|].
      constructor; [exact I|constructor].
  - unfold handleLike. destruct (set_has _ _); simpl.
    + split; assumption.
    + split; [exact Hpage|]. apply Forall_app. split; [exact Hcalls|].
      constructor; [exact I|constructor].
  - destruct (inflight w !! i) as [k|]; [|split; assumption].
    destruct (settle k o (ui w)) as [s'|] eqn:Hs; [|split; assumption].
    simpl. split; [|exact Hcalls].
    destruct k as [page filter_|project|project isLiked], o as [r|r|r];
      simpl in Hs; try discriminate; injection Hs as <-.
    + unfold fetchProjects_settle.
      destruct r as [|[|] [data|]]; try exact Hpage.
      destruct (page =? 1); exact Hpage.
    + destruct r; exact Hpage.
    + unfold handleLike_settle. destruct r as [|[|] [result|]]; exact Hpage.
Qed.

(** X20. In every session reached from the mounted component the page
    counter is at least 1, and every listing call ever issued asks for a
    page of at least 1 with the query that [fetchProjects] builds (status
    published, limit 12): the controller never asks the listing endpoint
    for a page below the first. *)
Theorem listing_calls_well_paged (es : list Event) :
  1 <= currentPage (ui (run mounted es)) /\
  Forall well_paged (calls (run mounted es)).
Proof.
  assert (forall w,
            1 <= currentPage (ui w) /\ Forall well_paged (calls w) ->
            1 <= currentPage (ui (run w es)) /\ Forall well_paged (calls (run w es)))
    as Hrun.
  { induction es as [|e es IH]; intros w Hw; simpl; [exact Hw|].
    apply IH, step_well_paged, Hw. }
  apply Hrun.
  destruct (fetchProjects_well_paged 1 "all" false initial ltac:(lia)) as [H1 H2].
  unfold mounted, filter_effect. split.
  - rewrite issue_ui. change (filter initial) with "all". rewrite H2. simpl. lia.
  - apply issue_well_paged; [constructor|exact H1].
Qed.

(** *** The listing flow *)

Lemma fetch_failure_state page filter_ r (s : State) :
  failed r ->
  fetchProjects_settle page filter_ r s = fetchProjects_finally (listKey page filter_) s.
Proof.
  intros H. unfold fetchProjects_settle.
  destruct r as [|[|] [data|]]; simpl in H; [reflexivity|contradiction|reflexivity..].
Qed.

(** X21. A "load more" whose request fails is not retried. From a session
    on page [n] with at least two further pages, a trigger, the failure of
    its request and a second trigger issue the calls for page [n+1] and
    then for page [n+2]: the page counter stays advanced after the
    failure, the loaded projects are those from before, and page [n+1] is
    left out. *)
Theorem failed_load_more_skips_page (w0 : Session) (r : FetchResult ApiResponse) :
  let n := currentPage (ui w0) in
  let f := filter (ui w0) in
  n + 1 < totalPages (ui w0) ->
  isLoadingMore (ui w0) = false ->
  listKey (n + 1) f ∉ pendingRequests (ui w0) ->
  listKey (n + 2) f ∉ pendingRequests (ui w0) ->
  failed r ->
  let w := run w0 [LoadMore; Settle (length (inflight w0)) (FetchOutcome r); LoadMore] in
  calls w = calls w0 ++ [GetProjects (listing_params (n + 1) f);
                         GetProjects (listing_params (n + 2) f)] /\
  projects (ui w) = projects (ui w0) /\
  currentPage (ui w) = n + 2.
Proof.
  intros n f Hpages Hidle Hfresh1 Hfresh2 Hfailed.
  destruct w0 as [s fl cs]. simpl in n, f, Hpages, Hidle, Hfresh1, Hfresh2.
  unfold run. cbn [fold_left].
  (* first trigger *)
  assert (step {| ui := s; inflight := fl; calls := cs |} LoadMore =
          {| ui := setIsLoadingMore true
                     (setPendingRequests (set_add (listKey (n + 1) f))
                        (setCurrentPage (n + 1) s));
             inflight := fl ++ [FetchPending (n + 1) f];
             calls := cs ++ [GetProjects (listing_params (n + 1) f)] |}) as ->.
  { assert ((currentPage s <? totalPages s) = true) as Hlt
      by (apply Z.ltb_lt; fold n; lia).
    unfold step, loadMoreProjects. cbn [ui]. rewrite Hlt, Hidle.
    cbn [andb negb]. fold n f.
    rewrite (fetchProjects_fresh (n + 1) f true (setCurrentPage (n + 1) s) Hfresh1).
    reflexivity. }
  (* the failure *)
  assert (forall s1 cs1,
            step {| ui := s1; inflight := fl ++ [FetchPending (n + 1) f]; calls := cs1 |}
                 (Settle (length fl) (FetchOutcome r)) =
            {| ui := fetchProjects_finally (listKey (n + 1) f) s1;
               inflight := fl; calls := cs1 |}) as ->.
  { intros s1 cs1. unfold step. cbn [inflight ui calls].
    rewrite lookup_app_r, Nat.sub_diag by lia. cbn [lookup list_lookup settle].
    rewrite (fetch_failure_state _ _ _ _ Hfailed). f_equal.
    rewrite delete_take_drop, take_app_length.
    rewrite drop_app_ge by lia.
    replace (S (length fl) - length fl)%nat with 1%nat by lia.
    simpl. apply app_nil_r. }
  (* second trigger *)
  unfold step, loadMoreProjects. cbn [ui].
  assert ((n + 1 <? totalPages s) = true) as Hguard by (apply Z.ltb_lt; lia).
  cbn. fold n f. rewrite Hguard. cbn.
  unfold fetchProjects. cbn.
  replace (set_has (listKey (n + 1 + 1) f)
             (set_delete (listKey (n + 1) f)
                (set_add (listKey (n + 1) f) (pendingRequests s)))) with false.
  - cbn. rewrite <- app_assoc. simpl.
    replace (n + 1 + 1) with (n + 2) by lia. split; [reflexivity|].
    split; [reflexivity|lia].
  - symmetry. apply set_has_false. replace (n + 1 + 1) with (n + 2) by lia.
    unfold set_delete, set_add. intros H.
    apply elem_of_difference in H as [H Hne]. apply elem_of_union in H as [H|H].
    + exact (Hne H).
    + exact (Hfresh2 H).
Qed.

Lemma failed_load_more_skips_page_witness :
  let w0 := {| ui := setTotalPages 4 (setLoading false initial);
               inflight := []; calls := [] |} in
  let r : FetchResult ApiResponse := HttpResponse false None in
  calls (run w0 [LoadMore; Settle 0 (FetchOutcome r); LoadMore])
  = [GetProjects (listing_params 2 "all"); GetProjects (listing_params 3 "all")].
Proof.
  intros w0 r.
  apply (failed_load_more_skips_page w0 r).
  - simpl. lia.
  - reflexivity.
  - apply not_elem_of_empty.
  - apply not_elem_of_empty.
  - exact I.
Defined.

(** X22. After a successful fetch of a page that is the last one (the
    response reports no more pages than the page fetched), [hasMore] is
    false and, the page counter being on that page, "load more" issues no
    request and changes nothing. *)
Theorem last_page_stops_loading (page : Z) (filter_ : string) (data : ApiResponse)
    (s : State) :
  currentPage s = page ->
  Api.pages (pagination data) <= page ->
  let s' := fetchProjects_settle page filter_ (HttpResponse true (Some data)) s in
  hasMore s' = false /\ totalPages s' = Api.pages (pagination data) /\
  loadMoreProjects s' = (s', None).
Proof.
  intros Hcur Hlast s'.
  assert (hasMore s' = (page <? Api.pages (pagination data)) /\
          totalPages s' = Api.pages (pagination data) /\
          currentPage s' = currentPage s) as (Hmore & Htotal & Hpage).
  { unfold s', fetchProjects_settle. destruct (page =? 1); repeat split. }
  assert ((page <? Api.pages (pagination data)) = false) as Hlt
    by (apply Z.ltb_ge; exact Hlast).
  split; [rewrite Hmore; exact Hlt|]. split; [exact Htotal|].
  unfold loadMoreProjects. rewrite Hpage, Htotal, Hcur, Hlt. reflexivity.
Qed.

Lemma last_page_stops_loading_witness :
  let data := {| Api.projects := [sample "c" 0 0];
                 pagination := {| page := 2; limit := 12; total := 13; pages := 2 |} |} in
  let s := setCurrentPage 2 initial in
  loadMoreProjects (fetchProjects_settle 2 "all" (HttpResponse true (Some data)) s)
  = (fetchProjects_settle 2 "all" (HttpResponse true (Some data)) s, None).
Proof.
  intros data s.
  apply (last_page_stops_loading 2 "all" data s); [reflexivity|simpl; lia].
Defined.

(** X23. A response is applied whatever the active filter has become.
    When the filter is changed away from "all" while the first listing
    request is still in flight and that request then succeeds, the loaded
    projects are those of the response for "all" although the active
    filter is the new one, whose own request is still in flight. *)
Theorem stale_response_is_applied (newFilter : string) (data : ApiResponse) :
  newFilter <> "all" ->
  let w := run mounted [FilterChange newFilter;
                        Settle 0 (FetchOutcome (HttpResponse true (Some data)))] in
  filter (ui w) = newFilter /\
  projects (ui w) = Api.projects data /\
  inflight w = [FetchPending 1 newFilter].
Proof.
  intros Hne.
  set (s0 := setLoading true (setPendingRequests (set_add (listKey 1 "all")) initial)).
  assert (mounted =
          {| ui := s0; inflight := [FetchPending 1 "all"];
             calls := [GetProjects (listing_params 1 "all")] |}) as ->.
  { unfold mounted, filter_effect. change (filter initial) with "all".
    rewrite (fetchProjects_fresh 1 "all" false initial) by apply not_elem_of_empty.
    reflexivity. }
  assert (listKey 1 newFilter ∉ pendingRequests (handleFilterChange newFilter s0))
    as Hfresh.
  { cbn. unfold set_add. intros H.
    apply elem_of_union in H as [H|H]; [|exact (not_elem_of_empty _ H)].
    apply elem_of_singleton in H. unfold listKey in H.
    apply (inj (String.app (pretty 1))) in H.
    apply (inj (String.app "-")) in H. exact (Hne H). }
  assert (step {| ui := s0; inflight := [FetchPending 1 "all"];
                  calls := [GetProjects (listing_params 1 "all")] |}
               (FilterChange newFilter) =
          {| ui := setLoading true
                     (setPendingRequests (set_add (listKey 1 newFilter))
                        (handleFilterChange newFilter s0));
             inflight := [FetchPending 1 "all"; FetchPending 1 newFilter];
             calls := [GetProjects (listing_params 1 "all");
                       GetProjects (listing_params 1 newFilter)] |}) as E1.
  { unfold step. cbn [ui]. change (filter s0) with "all".
    destruct (String.eqb_spec newFilter "all") as [E|_]; [contradiction|].
    unfold filter_effect.
    change (filter (handleFilterChange newFilter s0)) with newFilter.
    rewrite (fetchProjects_fresh 1 newFilter false _ Hfresh). reflexivity. }
  unfold run. cbn [fold_left]. rewrite E1.
  unfold step. cbn [inflight lookup list_lookup ui settle].
  repeat split.
Qed.

Lemma stale_response_is_applied_witness :
  let data := {| Api.projects := [sample "a" 0 0];
                 pagination := {| page := 1; limit := 12; total := 1; pages := 1 |} |} in
  let w := run mounted [FilterChange "branding";
                        Settle 0 (FetchOutcome (HttpResponse true (Some data)))] in
  filter (ui w) = "branding" /\ projects (ui w) = [sample "a" 0 0].
Proof.
  intros data w.
  destruct (stale_response_is_applied "branding" data ltac:(discriminate))
    as (Hf & Hp & _).
  split; [exact Hf|exact Hp].
Defined.

(** *** The like and view flows *)

(** X24. When the like request succeeds, the liked set is left as the
    optimistic flip made it, every loaded project with the identifier of
    the liked one shows the likes that the server answered, and the other
    projects, all identifiers and all view counts are as before. *)
Theorem like_success_reconciles (project : Project) (isLiked : bool) (n : Z)
    (message : string) (cur : State) :
  let s' := handleLike_settle project isLiked (like_ok n message) cur in
  likedProjects s' = likedProjects cur /\
  ids (projects s') = ids (projects cur) /\
  map views (projects s') = map views (projects cur) /\
  Forall2 (fun p p' => (_id p = _id project -> likes p' = n) /\
                       (_id p <> _id project -> p' = p))
          (projects cur) (projects s').
Proof.
  intros s'. unfold s', handleLike_settle, like_ok. simpl.
  split; [reflexivity|]. split; [apply reconcile_likes_ids|]. split.
  - unfold reconcile_likes. rewrite map_map. apply map_ext. intros p.
    destruct (String.eqb _ _); reflexivity.
  - unfold reconcile_likes. induction (projects cur) as [|p l IH]; simpl; constructor;
      [|exact IH].
    destruct (String.eqb_spec (_id p) (_id project)) as [E|E]; split.
    + intros _. reflexivity.
    + intros H. contradiction.
    + intros H. contradiction.
    + intros _. reflexivity.
Qed.

Lemma like_success_reconciles_witness :
  let project := sample "b" 1 0 in
  let cur := setProjects (fun _ => [sample "a" 5 0; sample "b" 1 0]) initial in
  let s' := handleLike_settle project false (like_ok 2 "Project liked") cur in
  projects s' = [sample "a" 5 0; sample "b" 2 0] /\
  Forall2 (fun p p' => (_id p = _id project -> likes p' = 2) /\
                       (_id p <> _id project -> p' = p))
          (projects cur) (projects s').
Proof.
  intros project cur s'. split; [reflexivity|].
  exact (proj2 (proj2 (proj2
           (like_success_reconciles project false 2 "Project liked" cur)))).
Defined.

(** X25. Liking twice, each request succeeding before the next click: the
    two requests carry opposite intents, and afterwards the liked set and
    the pending set are the ones from before the first click. *)
Theorem like_twice_restores (project : Project) (s : State)
    (n1 n2 : Z) (m1 m2 : string) :
  likeKey (_id project) ∉ pendingRequests s ->
  let b := set_has (_id project) (likedProjects s) in
  let d1 := handleLike project s in
  let s2 := handleLike_settle project b (like_ok n1 m1) (fst d1) in
  let d2 := handleLike project s2 in
  let s4 := handleLike_settle project (negb b) (like_ok n2 m2) (fst d2) in
  snd d1 = Some (PostLike (_id project) (negb b), LikePending project b) /\
  snd d2 = Some (PostLike (_id project) b, LikePending project (negb b)) /\
  likedProjects s4 = likedProjects s /\
  pendingRequests s4 = pendingRequests s.
Proof.
  intros Hfresh b d1 s2 d2 s4.
  assert (set_has (likeKey (_id project)) (pendingRequests s) = false) as Hk
    by (apply set_has_false, Hfresh).
  assert (d1 = (setPendingRequests (set_add (likeKey (_id project)))
                  (setLikedProjects
                     (fun _ => if b then set_delete (_id project) (likedProjects s)
                               else set_add (_id project) (likedProjects s)) s),
                Some (PostLike (_id project) (negb b), LikePending project b))) as E1.
  { unfold d1, handleLike. rewrite Hk. reflexivity. }
  assert (pendingRequests s2 = pendingRequests s) as Hp2.
  { unfold s2. rewrite E1. unfold handleLike_settle, like_ok. simpl.
    unfold set_delete, set_add. apply set_eq. intros x.
    rewrite elem_of_difference, elem_of_union, elem_of_singleton.
    split; [intros [[H|H] Hne]; [contradiction|exact H]|].
    intros H. split; [right; exact H|]. intros ->. exact (Hfresh H). }
  assert (likedProjects s2 = if b then set_delete (_id project) (likedProjects s)
                             else set_add (_id project) (likedProjects s)) as Hl2.
  { unfold s2. rewrite E1. reflexivity. }
  assert (set_has (_id project) (likedProjects s2) = negb b) as Hb2.
  { rewrite Hl2. unfold b. destruct (set_has (_id project) (likedProjects s)) eqn:E; simpl.
    - apply set_has_false, set_delete_gone.
    - apply set_has_true, set_add_here. }
  clearbody s2.
  assert (d2 = (setPendingRequests (set_add (likeKey (_id project)))
                  (setLikedProjects
                     (fun _ => if negb b then set_delete (_id project) (likedProjects s2)
                               else set_add (_id project) (likedProjects s2)) s2),
                Some (PostLike (_id project) (negb (negb b)),
                      LikePending project (negb b)))) as E2.
  { unfold d2, handleLike. rewrite Hp2, Hk, Hb2. reflexivity. }
  split; [rewrite E1; reflexivity|].
  split; [rewrite E2, negb_involutive; reflexivity|].
  unfold s4. rewrite E2. unfold handleLike_settle, like_ok.
  cbn [fst likedProjects pendingRequests setProjects setPendingRequests
       setLikedProjects negb]. split.
  - rewrite Hl2. unfold b. unfold set_delete, set_add.
    destruct (set_has (_id project) (likedProjects s)) eqn:E; simpl;
      apply set_eq; intros x.
    + apply set_has_true in E.
      rewrite elem_of_union, elem_of_difference, elem_of_singleton.
      split; [intros [->|[H _]]; assumption|].
      intros H. destruct (decide (x = _id project)); [left; assumption|right; auto].
    + apply set_has_false in E.
      rewrite elem_of_difference, elem_of_union, elem_of_singleton.
      split; [intros [[H|H] Hne]; [contradiction|exact H]|].
      intros H. split; [right; exact H|]. intros ->. exact (E H).
  - rewrite Hp2. unfold set_delete, set_add. apply set_eq. intros x.
    rewrite elem_of_difference, elem_of_union, elem_of_singleton.
    split; [intros [[H|H] Hne]; [contradiction|exact H]|].
    intros H. split; [right; exact H|]. intros ->. exact (Hfresh H).
Qed.

Lemma like_twice_restores_witness :
  let project := sample "p1" 3 0 in
  let d1 := handleLike project initial in
  let s2 := handleLike_settle project false (like_ok 4 "Project liked") (fst d1) in
  let d2 := handleLike project s2 in
  snd d1 = Some (PostLike "p1" true, LikePending project false) /\
  snd d2 = Some (PostLike "p1" false, LikePending project true) /\
  likedProjects
    (handleLike_settle project true (like_ok 3 "Project unliked") (fst d2)) = ∅.
Proof.
  intros project d1 s2 d2.
  destruct (like_twice_restores project initial 4 3 "Project liked" "Project unliked"
              ltac:(apply not_elem_of_empty)) as (H1 & H2 & H3 & _).
  split; [exact H1|]. split; [exact H2|exact H3].
Defined.

(** X26. However the view request ends, the clicked project becomes the
    selected one once it has ended, the loaded projects keep their
    identifiers and likes, and a view count changes only on a project with
    the clicked identifier whose count is still the one the click
    captured, and then by exactly one. *)
Theorem view_settle_guarded (project : Project)
    (r : FetchResult Server.ViewPayload) (s : State) :
  let s' := handleProjectClick_settle project r s in
  selectedImage s' = Some project /\
  ids (projects s') = ids (projects s) /\
  map likes (projects s') = map likes (projects s) /\
  Forall2 (fun p p' =>
             p' = p \/
             (_id p = _id project /\ views p = views project /\
              p' = with_views (views p + 1) p))
          (projects s) (projects s').
Proof.
  intros s'. split; [reflexivity|].
  destruct r as [|ok json]; simpl.
  - split; [reflexivity|]. split; [reflexivity|].
    apply Forall_Forall2_diag, Forall_forall. intros; left; reflexivity.
  - split; [apply bump_views_ids|]. split.
    + unfold bump_views. rewrite map_map. apply map_ext. intros p.
      destruct (_ && _); reflexivity.
    + eapply Forall2_impl; [apply bump_views_guarded|].
      intros p p' [[-> _]|H]; [left; reflexivity|right; exact H].
Qed.

End ClientMore.
